(** * The prediction service of [index.js], embedded and verified

    The JavaScript module is a Hapi server with one registered route,
    [POST /predict].  A request carries an image; the handler runs it through
    a TensorFlow graph model, turns the largest score into a label and an
    advice, stores the outcome in Firestore and answers with it.

    The embedding is shallow.  JavaScript numbers are IEEE-754 binary64
    values, so scores are Rocq's primitive floats.  Everything the module
    reaches outside of itself (tfjs, the bucket, Firestore, the clock, the
    random source, the file system faults) is an [Env] record of functions;
    the state those calls act on is a [World], which also keeps the list of
    external calls made so far.  Code that can throw lives in the monad
    [M A := World -> Result A * World]. *)

From Stdlib Require Import Floats ZArith.
From stdpp Require Import gmap strings list pretty.

Local Open Scope Z_scope.
Local Open Scope string_scope.
Local Open Scope list_scope.

(** ** Errors *)

(** [class InputError extends Error]: the constructor stores the message and
    sets [name] and [statusCode] (index.js 12-18). *)
Record InputError := MkInputError {
  ie_message : string;
  ie_name : string;
  ie_statusCode : Z
}.

Definition new_InputError (message : string) : InputError :=
  {| ie_message := message; ie_name := "InputError"; ie_statusCode := 400 |}.

(** A thrown value.  [EError] stands for every error object that is not an
    instance of [InputError]: the [TypeError] and [ReferenceError] of the
    language and the errors of the libraries. *)
Inductive JsError :=
| EInputError (e : InputError)
| EError (name message : string).

Definition error_message (e : JsError) : string :=
  match e with
  | EInputError ie => ie_message ie
  | EError _ message => message
  end.

Inductive Result (A : Type) :=
| Ok (a : A)
| Throw (e : JsError).

Arguments Ok {A} a.
Arguments Throw {A} e.

(** ** Data *)

Definition Bytes := list Byte.byte.

(** What a field of the multipart payload can hold once destructured. *)
Inductive JsValue :=
| JUndefined
| JBuffer (data : Bytes)
| JString (s : string).

(** A [tf.Tensor]: shape, element type and the flat values. *)
Record Tensor := MkTensor {
  t_shape : list Z;
  t_dtype : string;
  t_values : list float
}.

(** The handle [tf.loadGraphModel] resolves to; the service only calls
    [predict] on it. *)
Record GraphModel := MkGraphModel {
  gm_predict : Tensor -> Result Tensor
}.

(** The object literal [{ label, suggestion }] of index.js 81. *)
Record Classification := MkClassification {
  label : string;
  suggestion : string
}.

(** The object literal [data] of index.js 93-98. *)
Record Outcome := MkOutcome {
  id : string;
  result : string;
  o_suggestion : string;
  createdAt : string
}.

(** One element pushed by [postPredictHistoriesHandler] (index.js 114-122):
    [{ id, history: { result, createdAt, suggestion, id } }]. *)
Record History := MkHistory {
  h_result : string;
  h_createdAt : string;
  h_suggestion : string;
  h_id : string
}.

Record HistoryItem := MkHistoryItem {
  hi_id : string;
  hi_history : History
}.

(** The JSON bodies the module builds. *)
Inductive Body :=
| BodyPredicted (status message : string) (data : Outcome)
| BodyHistories (status : string) (data : list HistoryItem)
| BodyFail (status message : string).

(** A Hapi response object: [h.response(source)] then [.code(n)]. *)
Record Response := MkResponse {
  source : Body;
  code : Z
}.

(** ** Numbers: [Math.max] over a spread array *)

(** One step of [Math.max] (ECMAScript 21.3.2.24): a NaN on either side gives
    NaN, [+0] replaces a highest value of [-0], and otherwise a strictly
    larger number replaces the highest value. *)
Definition max2 (highest number : float) : float :=
  if (PrimFloat.is_nan highest || PrimFloat.is_nan number)%bool then PrimFloat.nan
  else if (PrimFloat.is_zero number && negb (PrimFloat.get_sign number)
           && PrimFloat.is_zero highest && PrimFloat.get_sign highest)%bool then number
  else if (highest <? number)%float then number
  else highest.

(** [Math.max(...score)]: the fold starts from [-Infinity], which is also the
    value for an empty array.  The spread passes every element as an
    argument; an engine refuses a call with more arguments than its stack
    holds (a [RangeError], which the [try] block of [predictClassification]
    would turn into its [InputError]).  Score vectors are taken below that
    bound: the model has one output per class. *)
Definition Math_max (score : list float) : float :=
  fold_left max2 score PrimFloat.neg_infinity.

(** index.js 73. *)
Definition confidenceScore (score : list float) : float :=
  (Math_max score * 100)%float.

(** index.js 73-81: the part of the [try] block after the scores are read. *)
Definition classify (score : list float) : Classification :=
  let label := if (confidenceScore score <=? 50)%float then "Non-cancer" else "Cancer" in
  let suggestion :=
    if String.eqb label "Cancer"
    then "Segera periksa ke dokter!"
    else "Penyakit kanker tidak terdeteksi." in
  {| label := label; suggestion := suggestion |}.

(** ** The world outside the module *)

(** Calls that leave the module, in the order they are made. *)
Inductive Event :=
| EvReadFileSync (path : string)
| EvHapiServer (key cert : Bytes)
| EvExistsSync (path : string)
| EvMkdirSync (path : string)
| EvDownload (bucketName srcFilename destFilename : string)
| EvConsoleLog (line : string)
| EvLoadGraphModel (url : string)
| EvDecodeJpeg (image : JsValue)
| EvResizeNearestNeighbor (x : Tensor) (size : list Z)
| EvExpandDims (x : Tensor) (axis : Z)
| EvToFloat (x : Tensor)
| EvModelPredict (x : Tensor)
| EvTensorData (x : Tensor)
| EvRandomUUID
| EvNow
| EvFirestoreSet (collection docId : string) (data : Outcome)
| EvServerRoute (paths : list string)
| EvServerExt (point : string)
| EvServerStart.

(** The mutable state the external calls act on. *)
Record World := MkWorld {
  fs_dirs : gset string;
  fs_files : gmap string Bytes;
  predictions : gmap string Outcome;
  events : list Event
}.

(** The collaborators.  Each field gives the outcome of one external call;
    those whose outcome can change with time or state see the [World]. *)
Record Env := MkEnv {
  dirname : string;
  mkdirSync_fault : World -> string -> option JsError;
  bucket_download : World -> string -> string -> Result Bytes;
  tf_loadGraphModel : World -> string -> Result GraphModel;
  tf_decodeJpeg : JsValue -> Result Tensor;
  tf_resizeNearestNeighbor : Tensor -> list Z -> Result Tensor;
  tf_expandDims : Tensor -> Z -> Result Tensor;
  tf_toFloat : Tensor -> Result Tensor;
  tensor_data : Tensor -> Result (list float);
  crypto_randomUUID : World -> string;
  date_toISOString : World -> string;
  firestore_fault : World -> string -> Outcome -> option JsError;
  hapi_server_fault : World -> option JsError;
  server_start_fault : World -> option JsError;
  server_info_uri : string
}.

(** ** The monad of the module's code *)

Definition M (A : Type) : Type := World -> Result A * World.

Definition ret {A} (a : A) : M A := fun w => (Ok a, w).

Definition throw {A} (e : JsError) : M A := fun w => (Throw e, w).

Definition bind {A B} (m : M A) (k : A -> M B) : M B :=
  fun w =>
    match m w with
    | (Ok a, w') => k a w'
    | (Throw e, w') => (Throw e, w')
    end.

Notation "x <- m ;; k" := (bind m (fun x => k))
  (at level 100, m at next level, right associativity).
Notation "m ;;; k" := (bind m (fun _ => k))
  (at level 100, right associativity).

(** [try { body } catch (error) { handler }]. *)
Definition try_catch {A} (body : M A) (handler : JsError -> M A) : M A :=
  fun w =>
    match body w with
    | (Ok a, w') => (Ok a, w')
    | (Throw e, w') => handler e w'
    end.

Definition emit (ev : Event) : M unit :=
  fun w => (Ok tt, {| fs_dirs := fs_dirs w; fs_files := fs_files w;
                      predictions := predictions w; events := events w ++ [ev] |}).

(** An external call: it is recorded, then it returns or throws. *)
Definition call {A} (ev : Event) (outcome : Result A) : M A :=
  emit ev ;;;
  match outcome with
  | Ok a => ret a
  | Throw e => throw e
  end.

Definition fault (ev : Event) (f : option JsError) : M unit :=
  call ev (match f with Some e => Throw e | None => Ok tt end).

Definition ask {A} (f : World -> A) : M A := fun w => (Ok (f w), w).

Definition write_file (path : string) (content : Bytes) : M unit :=
  fun w => (Ok tt, {| fs_dirs := fs_dirs w; fs_files := <[path := content]> (fs_files w);
                      predictions := predictions w; events := events w |}).

Definition add_dir (path : string) : M unit :=
  fun w => (Ok tt, {| fs_dirs := {[path]} ∪ fs_dirs w; fs_files := fs_files w;
                      predictions := predictions w; events := events w |}).

Definition put_prediction (docId : string) (data : Outcome) : M unit :=
  fun w => (Ok tt, {| fs_dirs := fs_dirs w; fs_files := fs_files w;
                      predictions := <[docId := data]> (predictions w);
                      events := events w |}).

(** ** Node built-ins used by the module *)

(** [path.join] on two segments that need no normalisation. *)
Definition path_join (a b : string) : string := a +:+ "/" +:+ b.

Definition existsSync (path : string) : M bool :=
  emit (EvExistsSync path) ;;;
  ask (fun w => bool_decide (path ∈ fs_dirs w) || bool_decide (is_Some (fs_files w !! path))).

Definition mkdirSync (env : Env) (path : string) : M unit :=
  f <- ask (fun w => mkdirSync_fault env w path) ;;
  fault (EvMkdirSync path) f ;;;
  add_dir path.

Definition readFileSync (path : string) : M Bytes :=
  c <- ask (fun w => fs_files w !! path) ;;
  call (EvReadFileSync path)
       (match c with
        | Some content => Ok content
        | None => Throw (EError "Error" ("ENOENT: no such file or directory, open '" +:+ path +:+ "'"))
        end).

Definition console_log (line : string) : M unit := emit (EvConsoleLog line).

(** ** The module: model loading (index.js 20-54) *)

Definition BUCKET_NAME : string := "model_mlgc_yasin".
Definition MODEL_PATH : string := "model.json".

(** index.js 23-29. *)
Definition downloadFile (env : Env) (bucketName srcFilename destFilename : string) : M unit :=
  r <- ask (fun w => bucket_download env w bucketName srcFilename) ;;
  content <- call (EvDownload bucketName srcFilename destFilename) r ;;
  write_file destFilename content ;;;
  console_log ("Downloaded " +:+ srcFilename +:+ " to " +:+ destFilename).

(** [for (const x of xs) { await body(x) }]. *)
Fixpoint for_of {A} (xs : list A) (body : A -> M unit) : M unit :=
  match xs with
  | [] => ret tt
  | x :: rest => body x ;;; for_of rest body
  end.

Definition modelWeights : list string :=
  [ "group1-shard1of4.bin"; "group1-shard2of4.bin";
    "group1-shard3of4.bin"; "group1-shard4of4.bin" ].

(** index.js 32-54.  The assignment to [model] at line 52 writes an implicit
    global that nothing reads; the value is what the function returns. *)
Definition loadModel (env : Env) : M GraphModel :=
  let modelDir := path_join (dirname env) "model" in
  present <- existsSync modelDir ;;
  (if negb present then mkdirSync env modelDir else ret tt) ;;;
  let modelJsonPath := path_join modelDir "model.json" in
  downloadFile env BUCKET_NAME MODEL_PATH modelJsonPath ;;;
  for_of modelWeights
    (fun weight => downloadFile env BUCKET_NAME weight (path_join modelDir weight)) ;;;
  r <- ask (fun w => tf_loadGraphModel env w ("file://" +:+ modelJsonPath)) ;;
  model <- call (EvLoadGraphModel ("file://" +:+ modelJsonPath)) r ;;
  ret model.

(** ** The module: storing and classifying (index.js 57-85) *)

(** index.js 57-61: [collection('predictions').doc(id).set(data)]. *)
Definition storeData (env : Env) (id : string) (data : Outcome) : M unit :=
  f <- ask (fun w => firestore_fault env w id data) ;;
  fault (EvFirestoreSet "predictions" id data) f ;;;
  put_prediction id data.

(** [model.predict(tensor)]; reading a property of [undefined] is a
    [TypeError]. *)
Definition model_predict (model : option GraphModel) (tensor : Tensor) : M Tensor :=
  match model with
  | Some m => call (EvModelPredict tensor) (gm_predict m tensor)
  | None => throw (EError "TypeError" "Cannot read properties of undefined (reading 'predict')")
  end.

(** index.js 66-72: from the image to the scores.  [expandDims()] is called
    without an argument, so its axis takes the default, 0. *)
Definition infer (env : Env) (model : option GraphModel) (image : JsValue) : M (list float) :=
  decoded <- call (EvDecodeJpeg image) (tf_decodeJpeg env image) ;;
  resized <- call (EvResizeNearestNeighbor decoded [224; 224])
                  (tf_resizeNearestNeighbor env decoded [224; 224]) ;;
  expanded <- call (EvExpandDims resized 0) (tf_expandDims env resized 0) ;;
  tensor <- call (EvToFloat expanded) (tf_toFloat env expanded) ;;
  prediction <- model_predict model tensor ;;
  score <- call (EvTensorData prediction) (tensor_data env prediction) ;;
  ret score.

Definition PREDICTION_FAILED : string := "Terjadi kesalahan dalam melakukan prediksi".

(** index.js 64-85. *)
Definition predictClassification (env : Env) (model : option GraphModel) (image : JsValue)
  : M Classification :=
  try_catch
    (score <- infer env model image ;;
     ret (classify score))
    (fun error => throw (EInputError (new_InputError PREDICTION_FAILED))).

(** ** The module: handlers and routes (index.js 87-146) *)

Inductive HandlerName :=
| Hpredict
| HpostPredictHistoriesHandler.

Record PayloadOptions := MkPayloadOptions {
  allow : string;
  multipart : bool;
  maxBytes : Z
}.

Record Route := MkRoute {
  path : string;
  method : string;
  handler : HandlerName;
  options : PayloadOptions
}.

(** The Hapi server object as far as the module touches it. *)
Record Server := MkServer {
  app_model : option GraphModel;
  table : list Route;
  ext_onPreResponse : bool;
  started : bool
}.

(** A request as the handler sees it: [request.payload] (absent, or an object
    of fields) and [request.server]. *)
Record Request := MkRequest {
  req_method : string;
  req_path : string;
  payload : option (gmap string JsValue);
  req_server : Server
}.

(** [const { image } = request.payload]: a field that is not there reads as
    [undefined]; destructuring [null] or [undefined] is a [TypeError]. *)
Definition destructure_image (payload : option (gmap string JsValue)) : M JsValue :=
  match payload with
  | Some fields => ret (default JUndefined (fields !! "image"))
  | None => throw (EError "TypeError" "Cannot destructure property 'image' of 'request.payload' as it is undefined.")
  end.

Definition randomUUID (env : Env) : M string :=
  u <- ask (crypto_randomUUID env) ;;
  emit EvRandomUUID ;;;
  ret u.

Definition now_toISOString (env : Env) : M string :=
  t <- ask (date_toISOString env) ;;
  emit EvNow ;;;
  ret t.

(** index.js 87-107. *)
Definition predict (env : Env) (request : Request) : M Response :=
  image <- destructure_image (payload request) ;;
  let model := app_model (req_server request) in
  c <- predictClassification env model image ;;
  id <- randomUUID env ;;
  createdAt <- now_toISOString env ;;
  let data := {| id := id; result := label c; o_suggestion := suggestion c;
                 createdAt := createdAt |} in
  storeData env id data ;;;
  ret {| source := BodyPredicted "success" "Model is predicted successfully" data;
         code := 201 |}.

(** A document of a query snapshot: [doc.id] and [doc.data()]. *)
Record Doc := MkDoc {
  doc_id : string;
  doc_data : Outcome
}.

(** The module never declares [getAllData]; evaluating the identifier at
    index.js 110 is a [ReferenceError]. *)
Definition getAllData : M (list Doc) :=
  throw (EError "ReferenceError" "getAllData is not defined").

(** index.js 109-130. *)
Definition postPredictHistoriesHandler (request : Request) : M Response :=
  allData <- getAllData ;;
  let formatAllData :=
    map (fun doc =>
           let data := doc_data doc in
           {| hi_id := doc_id doc;
              hi_history := {| h_result := result data; h_createdAt := createdAt data;
                               h_suggestion := o_suggestion data; h_id := doc_id doc |} |})
        allData in
  ret {| source := BodyHistories "success" formatAllData; code := 200 |}.

(** index.js 132-146. *)
Definition routes : list Route :=
  [ {| path := "/predict"; method := "POST"; handler := Hpredict;
       options := {| allow := "multipart/form-data"; multipart := true;
                     maxBytes := 1000000 |} |} ].

Definition run_handler (env : Env) (h : HandlerName) (request : Request) : M Response :=
  match h with
  | Hpredict => predict env request
  | HpostPredictHistoriesHandler => postPredictHistoriesHandler request
  end.

(** ** Hapi's request lifecycle, as far as the module relies on it

    What [request.response] holds when [onPreResponse] runs: the handler's
    response object, or an error.  Hapi turns every error into a Boom error
    by decorating the error object itself, so the object keeps its class and
    its own fields and gains [isBoom] and [output.statusCode]. *)
Inductive ResponseValue :=
| RVResponse (r : Response)
| RVError (e : JsError) (output_statusCode : Z).

(** index.js 169-188.  The first arm is [response instanceof InputError], the
    second [response.isBoom], the third [h.continue]. *)
Definition onPreResponse (response : ResponseValue) : ResponseValue :=
  match response with
  | RVError (EInputError ie) _ =>
      RVResponse {| source := BodyFail "fail" (ie_message ie); code := ie_statusCode ie |}
  | RVError e output_statusCode =>
      RVResponse {| source := BodyFail "fail" (error_message e); code := output_statusCode |}
  | RVResponse _ => response
  end.

Definition find_route (table : list Route) (m p : string) : option Route :=
  find (fun r => String.eqb (method r) m && String.eqb (path r) p) table.

(** One request, from the router on: the route is looked up (no route: Boom
    404 "Not Found"), the handler runs (a thrown error: Boom 500 around it),
    and the [onPreResponse] extension sees the result.

    What Hapi settles before the router and the handler is not part of
    [serve].  The server is built with [cors: { origin: ['*'] }] (index.js
    158-162), so Hapi answers an [OPTIONS] preflight by itself; and the route
    carries payload options (index.js 137-143), so Hapi refuses a body of
    another media type, a body over [maxBytes] or a malformed multipart body
    (415, 413, 400) without calling [predict].  [serve] is about the
    requests Hapi lets through: [m] is not [OPTIONS] where the answer
    matters, [body] is the payload as parsed, and the statements about a
    handled request take it to be an object of fields ([Some fields]); the
    case [None] is the handler called without a payload, which the parser
    of this route does not let happen. *)
Definition serve (env : Env) (server : Server) (m p : string)
    (body : option (gmap string JsValue)) (w : World) : ResponseValue * World :=
  let request := {| req_method := m; req_path := p; payload := body; req_server := server |} in
  let '(response, w') :=
    match find_route (table server) m p with
    | None => (RVError (EError "Error" "Not Found") 404, w)
    | Some r =>
        match run_handler env (handler r) request w with
        | (Ok resp, w') => (RVResponse resp, w')
        | (Throw e, w') => (RVError e 500, w')
        end
    end in
  (if ext_onPreResponse server then onPreResponse response else response, w').

(** ** The module: start-up (index.js 148-192) *)

(** index.js 148-151, evaluated while the module loads. *)
Definition tls (env : Env) : M (Bytes * Bytes) :=
  key <- readFileSync (path_join (path_join (dirname env) "cert") "key.pem") ;;
  cert <- readFileSync (path_join (path_join (dirname env) "cert") "cert.pem") ;;
  ret (key, cert).

(** [Hapi.server({ ..., tls })]. *)
Definition Hapi_server (env : Env) (t : Bytes * Bytes) : M Server :=
  f <- ask (hapi_server_fault env) ;;
  fault (EvHapiServer (fst t) (snd t)) f ;;;
  ret {| app_model := None; table := []; ext_onPreResponse := false; started := false |}.

Definition server_start (env : Env) : M unit :=
  f <- ask (server_start_fault env) ;;
  fault EvServerStart f.

(** index.js 153-192, the body of the immediately invoked async function. *)
Definition start (env : Env) (t : Bytes * Bytes) : M Server :=
  server <- Hapi_server env t ;;
  model <- loadModel env ;;
  let server := {| app_model := Some model; table := table server;
                   ext_onPreResponse := ext_onPreResponse server;
                   started := started server |} in
  emit (EvServerRoute (map path routes)) ;;;
  let server := {| app_model := app_model server; table := table server ++ routes;
                   ext_onPreResponse := ext_onPreResponse server;
                   started := started server |} in
  emit (EvServerExt "onPreResponse") ;;;
  let server := {| app_model := app_model server; table := table server;
                   ext_onPreResponse := true; started := started server |} in
  server_start env ;;;
  let server := {| app_model := app_model server; table := table server;
                   ext_onPreResponse := ext_onPreResponse server; started := true |} in
  console_log ("Server start at: " +:+ server_info_uri env) ;;;
  ret server.

(** The whole module, top to bottom: the [tls] constant, then the function. *)
Definition main (env : Env) : M Server :=
  t <- tls env ;;
  start env t.

(** The events a run added to the world. *)
Definition new_events (before after : World) : list Event :=
  drop (length (events before)) (events after).

(** ** Vocabulary of the statements *)

(** *** Calls on record *)

(** A world with more calls on record and nothing else changed. *)
Definition logged (w : World) (evs : list Event) : World :=
  {| fs_dirs := fs_dirs w; fs_files := fs_files w; predictions := predictions w;
     events := events w ++ evs |}.

(** Calls into tfjs on the request path. *)
Definition is_tf_event (ev : Event) : bool :=
  match ev with
  | EvDecodeJpeg _ | EvResizeNearestNeighbor _ _ | EvExpandDims _ _ | EvToFloat _
  | EvModelPredict _ | EvTensorData _ => true
  | _ => false
  end.

Definition is_download (ev : Event) : bool :=
  match ev with
  | EvDownload _ _ _ => true
  | _ => false
  end.

(** The calls a download makes: the transfer and the log line after it. *)
Definition is_fetch_event (ev : Event) : bool :=
  match ev with
  | EvDownload _ _ _ | EvConsoleLog _ => true
  | _ => false
  end.

Definition is_firestore_set (ev : Event) : bool :=
  match ev with
  | EvFirestoreSet _ _ _ => true
  | _ => false
  end.

(** Any call but [server.start()]. *)
Definition not_start (ev : Event) : Prop := ev <> EvServerStart.

(** Every external call of [m], from any world, satisfies [P]; the log only
    grows. *)
Definition emits (P : Event -> Prop) {A} (m : M A) : Prop :=
  forall w, exists evs, events (snd (m w)) = events w ++ evs /\ Forall P evs.

(** *** The classification step *)

(** A score is a number, not NaN. *)
Definition not_nan (x : float) : Prop := PrimFloat.is_nan x = false.

Definition result_bind {A B} (r : Result A) (k : A -> Result B) : Result B :=
  match r with
  | Ok a => k a
  | Throw e => Throw e
  end.

(** The preprocessor as the specification words it (section 4.3): decode the
    bytes as a JPEG, resize to 224 by 224 with nearest-neighbour
    interpolation, add a leading batch dimension (axis 0), convert to
    floating point, and nothing after that. *)
Definition spec_decode (env : Env) (imageBytes : JsValue) : Result Tensor :=
  result_bind (tf_decodeJpeg env imageBytes) (fun decoded =>
  result_bind (tf_resizeNearestNeighbor env decoded [224; 224]) (fun resized =>
  result_bind (tf_expandDims env resized 0) (fun batched =>
  tf_toFloat env batched))).

(** What [model.predict(tensor)] evaluates to. *)
Definition invoke (model : option GraphModel) (tensor : Tensor) : Result Tensor :=
  match model with
  | Some m => gm_predict m tensor
  | None => Throw (EError "TypeError" "Cannot read properties of undefined (reading 'predict')")
  end.

(** The three places a classification can fail, each with its cause. *)
Inductive classification_failure (env : Env) (model : option GraphModel) (image : JsValue)
  : JsError -> Prop :=
| decoding_failed cause :
    spec_decode env image = Throw cause ->
    classification_failure env model image cause
| invocation_failed tensor cause :
    spec_decode env image = Ok tensor ->
    invoke model tensor = Throw cause ->
    classification_failure env model image cause
| extraction_failed tensor prediction cause :
    spec_decode env image = Ok tensor ->
    invoke model tensor = Ok prediction ->
    tensor_data env prediction = Throw cause ->
    classification_failure env model image cause.

(** The calls [infer] makes, read off the outcomes of the collaborators: each
    call is made only if the one before it returned. *)
Definition infer_trace (env : Env) (model : option GraphModel) (image : JsValue) : list Event :=
  EvDecodeJpeg image ::
  match tf_decodeJpeg env image with
  | Throw _ => []
  | Ok decoded =>
      EvResizeNearestNeighbor decoded [224; 224] ::
      match tf_resizeNearestNeighbor env decoded [224; 224] with
      | Throw _ => []
      | Ok resized =>
          EvExpandDims resized 0 ::
          match tf_expandDims env resized 0 with
          | Throw _ => []
          | Ok batched =>
              EvToFloat batched ::
              match tf_toFloat env batched with
              | Throw _ => []
              | Ok tensor =>
                  match model with
                  | None => []
                  | Some m =>
                      EvModelPredict tensor ::
                      match gm_predict m tensor with
                      | Throw _ => []
                      | Ok prediction => [EvTensorData prediction]
                      end
                  end
              end
          end
      end
  end.

(** *** Requests *)

(** The server object [start] builds when every step succeeds. *)
Definition running (model : GraphModel) : Server :=
  {| app_model := Some model; table := routes; ext_onPreResponse := true; started := true |}.

(** The record [predict] assembles (index.js 91-98) when the classification
    [c] has just returned in world [w1]: the identifier is drawn first, the
    timestamp second. *)
Definition assembled (env : Env) (w1 : World) (c : Classification) : Outcome :=
  {| id := crypto_randomUUID env w1;
     result := label c;
     o_suggestion := suggestion c;
     createdAt := date_toISOString env (snd (randomUUID env w1)) |}.

(** The world in which [storeData] is then called. *)
Definition world_at_store (env : Env) (w1 : World) : World :=
  snd (now_toISOString env (snd (randomUUID env w1))).

(** The image field of a multipart payload is missing or empty. *)
Definition image_missing_or_empty (fields : gmap string JsValue) : Prop :=
  fields !! "image" = None \/
  fields !! "image" = Some (JBuffer []) \/
  fields !! "image" = Some (JString "").

(** A request is turned down with a 400 "fail" body without its image ever
    reaching the decoder. *)
Definition rejected_before_decoding (env : Env) (server : Server)
    (fields : gmap string JsValue) (w : World) : Prop :=
  (exists message,
     fst (serve env server "POST" "/predict" (Some fields) w) =
     RVResponse {| source := BodyFail "fail" message; code := 400 |}) /\
  forall image,
    EvDecodeJpeg image ∉ new_events w (snd (serve env server "POST" "/predict" (Some fields) w)).

(** *** Start-up *)

(** The three stages of [loadModel], named so that each can be reasoned about
    on its own: the directory check (index.js 33-36), the downloads
    (index.js 38-50) and the load (index.js 52). *)
Definition ensure_dir (env : Env) (dir : string) : M unit :=
  present <- existsSync dir ;;
  if negb present then mkdirSync env dir else ret tt.

Definition fetch (env : Env) (dir : string) (files : list string) : M unit :=
  for_of files (fun f => downloadFile env BUCKET_NAME f (path_join dir f)).

Definition load (env : Env) (url : string) : M GraphModel :=
  r <- ask (fun w => tf_loadGraphModel env w url) ;;
  call (EvLoadGraphModel url) r.

(** The world in which [start] calls [loadModel]: after the certificate files
    were read and [Hapi.server] was called. *)
Definition world_at_load (env : Env) (w : World) : World :=
  match tls env w with
  | (Ok t, w1) => snd (Hapi_server env t w1)
  | (Throw _, w1) => w1
  end.

(** Every download of a run fetched a file the cache did not hold. *)
Definition fetches_only_missing_files (before after : World) : Prop :=
  forall bucketName srcFilename destFilename,
    EvDownload bucketName srcFilename destFilename ∈ new_events before after ->
    fs_files before !! destFilename = None.

(** *** Variations of an environment *)

(** Replacing one collaborator of an environment. *)
Definition with_decodeJpeg (env : Env) (f : JsValue -> Result Tensor) : Env :=
  {| dirname := dirname env;
     mkdirSync_fault := mkdirSync_fault env;
     bucket_download := bucket_download env;
     tf_loadGraphModel := tf_loadGraphModel env;
     tf_decodeJpeg := f;
     tf_resizeNearestNeighbor := tf_resizeNearestNeighbor env;
     tf_expandDims := tf_expandDims env;
     tf_toFloat := tf_toFloat env;
     tensor_data := tensor_data env;
     crypto_randomUUID := crypto_randomUUID env;
     date_toISOString := date_toISOString env;
     firestore_fault := firestore_fault env;
     hapi_server_fault := hapi_server_fault env;
     server_start_fault := server_start_fault env;
     server_info_uri := server_info_uri env |}.

Definition with_download (env : Env) (f : World -> string -> string -> Result Bytes) : Env :=
  {| dirname := dirname env;
     mkdirSync_fault := mkdirSync_fault env;
     bucket_download := f;
     tf_loadGraphModel := tf_loadGraphModel env;
     tf_decodeJpeg := tf_decodeJpeg env;
     tf_resizeNearestNeighbor := tf_resizeNearestNeighbor env;
     tf_expandDims := tf_expandDims env;
     tf_toFloat := tf_toFloat env;
     tensor_data := tensor_data env;
     crypto_randomUUID := crypto_randomUUID env;
     date_toISOString := date_toISOString env;
     firestore_fault := firestore_fault env;
     hapi_server_fault := hapi_server_fault env;
     server_start_fault := server_start_fault env;
     server_info_uri := server_info_uri env |}.

Definition with_loadGraphModel (env : Env) (f : World -> string -> Result GraphModel) : Env :=
  {| dirname := dirname env;
     mkdirSync_fault := mkdirSync_fault env;
     bucket_download := bucket_download env;
     tf_loadGraphModel := f;
     tf_decodeJpeg := tf_decodeJpeg env;
     tf_resizeNearestNeighbor := tf_resizeNearestNeighbor env;
     tf_expandDims := tf_expandDims env;
     tf_toFloat := tf_toFloat env;
     tensor_data := tensor_data env;
     crypto_randomUUID := crypto_randomUUID env;
     date_toISOString := date_toISOString env;
     firestore_fault := firestore_fault env;
     hapi_server_fault := hapi_server_fault env;
     server_start_fault := server_start_fault env;
     server_info_uri := server_info_uri env |}.

(** ** A small concrete environment

    A stand-in for the collaborators, used to run the module on concrete
    inputs: a decoder that accepts buffers starting with the JPEG marker
    [FF D8], a bucket that holds the five artifact files, and a model whose
    single score is the first pixel divided by 256. *)
Module Demo.

Definition byte_to_float (b : Byte.byte) : float :=
  PrimFloat.of_uint63 (Uint63.of_Z (Z.of_N (Byte.to_N b))).

Definition decodeJpeg (image : JsValue) : Result Tensor :=
  match image with
  | JBuffer (Byte.xff :: Byte.xd8 :: pixels) =>
      Ok {| t_shape := [1; 1; 3]; t_dtype := "int32";
            t_values := map byte_to_float (take 3 pixels) |}
  | JBuffer _ => Throw (EError "Error" "Expected image (BMP, JPEG, PNG, or GIF), but got unsupported image type")
  | _ => Throw (EError "TypeError" "contents must be a Uint8Array")
  end.

Definition resizeNearestNeighbor (x : Tensor) (size : list Z) : Result Tensor :=
  Ok {| t_shape := size ++ drop 2 (t_shape x); t_dtype := t_dtype x; t_values := t_values x |}.

Definition expandDims (x : Tensor) (axis : Z) : Result Tensor :=
  Ok {| t_shape := take (Z.to_nat axis) (t_shape x) ++ 1 :: drop (Z.to_nat axis) (t_shape x); t_dtype := t_dtype x; t_values := t_values x |}.

Definition toFloat (x : Tensor) : Result Tensor :=
  Ok {| t_shape := t_shape x; t_dtype := "float32"; t_values := t_values x |}.

Definition data (x : Tensor) : Result (list float) :=
  match t_values x with
  | [] => Throw (EError "Error" "Tensor is disposed.")
  | _ => Ok (t_values x)
  end.

(** The score is the first pixel over 256, so a pixel of 128 scores 0.5. *)
Definition model : GraphModel :=
  {| gm_predict := fun x =>
       Ok {| t_shape := [1; 1]; t_dtype := "float32";
             t_values := map (fun v => (v / 256)%float) (take 1 (t_values x)) |} |}.

(** A model whose [predict] throws. *)
Definition broken_model : GraphModel :=
  {| gm_predict := fun _ => Throw (EError "Error" "The shape of dict['input'] provided in model.execute(dict) must be [-1,224,224,3]") |}.

(** A model whose output cannot be read back. *)
Definition disposed_model : GraphModel :=
  {| gm_predict := fun _ => Ok {| t_shape := [0]; t_dtype := "float32"; t_values := [] |} |}.

Definition artifact (name : string) : bool :=
  bool_decide (name ∈ MODEL_PATH :: modelWeights).

Definition download (w : World) (bucketName srcFilename : string) : Result Bytes :=
  if String.eqb bucketName BUCKET_NAME && artifact srcFilename
  then Ok [Byte.x01]
  else Throw (EError "ApiError" ("No such object: " +:+ bucketName +:+ "/" +:+ srcFilename)).

Definition loadGraphModel (w : World) (url : string) : Result GraphModel :=
  if bool_decide (is_Some (fs_files w !! "/app/model/model.json"))
  then Ok model
  else Throw (EError "Error" "ENOENT: no such file or directory").

Definition env : Env :=
  {| dirname := "/app";
     mkdirSync_fault := fun _ _ => None;
     bucket_download := download;
     tf_loadGraphModel := loadGraphModel;
     tf_decodeJpeg := decodeJpeg;
     tf_resizeNearestNeighbor := resizeNearestNeighbor;
     tf_expandDims := expandDims;
     tf_toFloat := toFloat;
     tensor_data := data;
     crypto_randomUUID := fun w => "uuid-" +:+ pretty (length (events w));
     date_toISOString := fun _ => "2024-12-01T00:00:00.000Z";
     firestore_fault := fun _ _ _ => None;
     hapi_server_fault := fun _ => None;
     server_start_fault := fun _ => None;
     server_info_uri := "https://0.0.0.0:3000" |}.

(** The same environment with an empty bucket. *)
Definition env_empty_bucket : Env :=
  with_download env
    (fun _ b s => Throw (EError "ApiError" ("No such object: " +:+ b +:+ "/" +:+ s))).

(** The same environment with a topology file tfjs cannot parse. *)
Definition env_bad_topology : Env :=
  with_loadGraphModel env
    (fun _ _ => Throw (EError "SyntaxError" "Unexpected token in JSON at position 0")).

(** The same environment with a decoder that accepts whatever it is given. *)
Definition env_lenient_decoder : Env :=
  with_decodeJpeg env
    (fun _ => Ok {| t_shape := [1; 1; 3]; t_dtype := "int32"; t_values := [0%float] |}).

(** A fresh machine: the code and the certificate, no model directory. *)
Definition fresh : World :=
  {| fs_dirs := {["/app"; "/app/cert"]};
     fs_files := {["/app/cert/key.pem" := [Byte.x2d]; "/app/cert/cert.pem" := [Byte.x2d]]};
     predictions := ∅;
     events := [] |}.

(** The machine after an earlier start: the model directory holds the five
    artifact files. *)
Definition warm : World :=
  {| fs_dirs := {["/app"; "/app/cert"; "/app/model"]};
     fs_files := {["/app/cert/key.pem" := [Byte.x2d]; "/app/cert/cert.pem" := [Byte.x2d];
                   "/app/model/model.json" := [Byte.x01];
                   "/app/model/group1-shard1of4.bin" := [Byte.x01];
                   "/app/model/group1-shard2of4.bin" := [Byte.x01];
                   "/app/model/group1-shard3of4.bin" := [Byte.x01];
                   "/app/model/group1-shard4of4.bin" := [Byte.x01]]};
     predictions := ∅;
     events := [] |}.

(** The server a successful start leaves behind. *)
Definition server : Server := running model.

Definition white_jpeg : JsValue := JBuffer [Byte.xff; Byte.xd8; Byte.xff; Byte.xff; Byte.xff].
Definition black_jpeg : JsValue := JBuffer [Byte.xff; Byte.xd8; Byte.x00; Byte.x00; Byte.x00].
Definition grey_jpeg : JsValue := JBuffer [Byte.xff; Byte.xd8; Byte.x80; Byte.x80; Byte.x80].
Definition text_file : JsValue := JBuffer [Byte.x68; Byte.x69].

End Demo.

(** ** Further vocabulary

    Names for the statements about the rest of the module's behaviour. *)

(** The two answers [classify] can give. *)
Definition CANCER : Classification :=
  {| label := "Cancer"; suggestion := "Segera periksa ke dokter!" |}.

Definition NON_CANCER : Classification :=
  {| label := "Non-cancer"; suggestion := "Penyakit kanker tidak terdeteksi." |}.

(** A stored record as [predict] writes them: filed under its own [id], with
    one of the two label and suggestion pairs. *)
Definition record_ok (key : string) (o : Outcome) : Prop :=
  id o = key /\
  ((result o = "Cancer" /\ o_suggestion o = "Segera periksa ke dokter!") \/
   (result o = "Non-cancer" /\ o_suggestion o = "Penyakit kanker tidak terdeteksi.")).

Definition store_ok (p : gmap string Outcome) : Prop := map_Forall record_ok p.

(** The model directory and what [loadModel] puts in it. *)
Definition modelDir_of (env : Env) : string := path_join (dirname env) "model".

Definition artifact_paths (env : Env) : list string :=
  map (path_join (modelDir_of env)) (MODEL_PATH :: modelWeights).

Definition artifact_downloads (env : Env) : list Event :=
  map (fun f => EvDownload BUCKET_NAME f (path_join (modelDir_of env) f))
      (MODEL_PATH :: modelWeights).

Definition is_mkdir (ev : Event) : bool :=
  match ev with
  | EvMkdirSync _ => true
  | _ => false
  end.

(** What [fs.existsSync] tests: a directory or a file of that name. *)
Definition on_disk (path : string) (w : World) : Prop :=
  path ∈ fs_dirs w \/ is_Some (fs_files w !! path).

(** A bucket whose five objects can always be fetched, with fixed content. *)
Definition stable_bucket (env : Env) (content : string -> Bytes) : Prop :=
  forall w f, f ∈ MODEL_PATH :: modelWeights ->
              bucket_download env w BUCKET_NAME f = Ok (content f).

(** From [w] to [w']: the predictions are the same, no directory went away
    and at most [dir] was added, no file went away, and every file outside
    [paths] is what it was. *)
Definition frame (dir : string) (paths : list string) (w w' : World) : Prop :=
  predictions w' = predictions w /\
  fs_dirs w ⊆ fs_dirs w' /\
  fs_dirs w' ⊆ {[dir]} ∪ fs_dirs w /\
  (forall p, is_Some (fs_files w !! p) -> is_Some (fs_files w' !! p)) /\
  (forall p, p ∉ paths -> fs_files w' !! p = fs_files w !! p).

(** Every run of [m] relates the world before to the world after. *)
Definition respects (R : World -> World -> Prop) {A} (m : M A) : Prop :=
  forall w, R w (snd (m w)).

Definition with_firestore_fault (env : Env)
    (f : World -> string -> Outcome -> option JsError) : Env :=
  {| dirname := dirname env;
     mkdirSync_fault := mkdirSync_fault env;
     bucket_download := bucket_download env;
     tf_loadGraphModel := tf_loadGraphModel env;
     tf_decodeJpeg := tf_decodeJpeg env;
     tf_resizeNearestNeighbor := tf_resizeNearestNeighbor env;
     tf_expandDims := tf_expandDims env;
     tf_toFloat := tf_toFloat env;
     tensor_data := tensor_data env;
     crypto_randomUUID := crypto_randomUUID env;
     date_toISOString := date_toISOString env;
     firestore_fault := f;
     hapi_server_fault := hapi_server_fault env;
     server_start_fault := server_start_fault env;
     server_info_uri := server_info_uri env |}.

(** The concrete environment with Firestore out of reach. *)
Definition env_firestore_down : Env :=
  with_firestore_fault Demo.env
    (fun _ _ _ => Some (EError "Error" "14 UNAVAILABLE: No connection established")).

(** The concrete environment after a new release of the model: the bucket
    serves other bytes than the ones on disk. *)
Definition env_new_release : Env :=
  with_download Demo.env (fun _ _ _ => Ok [Byte.x02]).

(** The concrete environment with the second shard gone from the bucket. *)
Definition env_missing_shard : Env :=
  with_download Demo.env
    (fun w b s =>
       if String.eqb s "group1-shard2of4.bin"
       then Throw (EError "ApiError" ("No such object: " +:+ b +:+ "/" +:+ s))
       else Demo.download w b s).

(** * Properties *)

(** ** The order on binary64 values

    The comparisons of primitive floats are specified on [spec_float]; the
    facts below are read off [SFcompare] by cases. *)
Module FloatOrder.

Ltac sf_cases :=
  repeat match goal with
  | |- context [Z.compare ?a ?b] => destruct (Z.compare_spec a b); simpl
  | |- context [PosDef.Pos.compare_cont Eq ?a ?b] =>
      change (PosDef.Pos.compare_cont Eq a b) with (Pos.compare a b);
      destruct (Pos.compare_spec a b); simpl
  end.

Ltac sf_solve :=
  simpl; try congruence; sf_cases; subst; try congruence; try lia.

Lemma SFltb_SFleb_false a b : SFltb a b = true -> SFleb b a = false.
Proof.
  unfold SFltb, SFleb.
  destruct a as [[]|[]| |[] ma ea], b as [[]|[]| |[] mb eb]; sf_solve.
Qed.

Lemma SFltb_SFleb a b : SFltb a b = true -> SFleb a b = true.
Proof. unfold SFltb, SFleb. destruct (SFcompare a b) as [[]|]; congruence. Qed.

Lemma SFleb_trans a b c : SFleb a b = true -> SFleb b c = true -> SFleb a c = true.
Proof.
  unfold SFleb.
  destruct a as [[]|[]| |[] ma ea], b as [[]|[]| |[] mb eb], c as [[]|[]| |[] mc ec];
    sf_solve.
Qed.

Lemma SFleb_refl a : SFeqb a a = true -> SFleb a a = true.
Proof. unfold SFeqb, SFleb. destruct (SFcompare a a) as [[]|]; congruence. Qed.

Lemma SFltb_false_SFleb a b :
  SFeqb a a = true -> SFeqb b b = true -> SFltb a b = false -> SFleb b a = true.
Proof.
  unfold SFeqb, SFltb, SFleb.
  destruct a as [[]|[]| |[] ma ea], b as [[]|[]| |[] mb eb]; sf_solve.
Qed.

Lemma SFeqb_SFleb a b : SFeqb a b = true -> SFleb a b = true.
Proof. unfold SFeqb, SFleb. destruct (SFcompare a b) as [[]|]; congruence. Qed.

Lemma SFeqb_sym a b : SFeqb a b = true -> SFeqb b a = true.
Proof.
  unfold SFeqb.
  destruct a as [[]|[]| |[] ma ea], b as [[]|[]| |[] mb eb]; sf_solve.
Qed.

End FloatOrder.

Section Scores.
Import FloatOrder.
Local Open Scope float_scope.

Lemma not_nan_eqb x : not_nan x -> (x =? x) = true.
Proof. unfold not_nan, PrimFloat.is_nan. destruct (x =? x); simpl; congruence. Qed.

Lemma leb_refl x : not_nan x -> (x <=? x) = true.
Proof.
  intros H%not_nan_eqb. rewrite leb_spec. apply SFleb_refl.
  now rewrite <- FloatAxioms.eqb_spec.
Qed.

Lemma ltb_leb x y : (x <? y) = true -> (x <=? y) = true.
Proof. rewrite ltb_spec, leb_spec. apply SFltb_SFleb. Qed.

Lemma ltb_leb_false x y : (x <? y) = true -> (y <=? x) = false.
Proof. rewrite ltb_spec, leb_spec. apply SFltb_SFleb_false. Qed.

Lemma leb_trans x y z : (x <=? y) = true -> (y <=? z) = true -> (x <=? z) = true.
Proof. rewrite !leb_spec. apply SFleb_trans. Qed.

Lemma ltb_false_leb x y : not_nan x -> not_nan y -> (x <? y) = false -> (y <=? x) = true.
Proof.
  intros Hx%not_nan_eqb Hy%not_nan_eqb. rewrite ltb_spec, leb_spec.
  rewrite FloatAxioms.eqb_spec in Hx, Hy. now apply SFltb_false_SFleb.
Qed.

Lemma zeros_leb x y :
  PrimFloat.is_zero x = true -> PrimFloat.is_zero y = true -> (x <=? y) = true.
Proof.
  unfold PrimFloat.is_zero. rewrite !FloatAxioms.eqb_spec, leb_spec. intros Hx Hy.
  apply SFeqb_sym in Hy. apply SFeqb_SFleb in Hx, Hy. eapply SFleb_trans; eauto.
Qed.

(** One step of [Math.max] on two numbers keeps one of them, and it is at
    least as large as both. *)
Lemma max2_spec h n :
  not_nan h -> not_nan n ->
  not_nan (max2 h n) /\ (max2 h n = h \/ max2 h n = n) /\
  (h <=? max2 h n) = true /\ (n <=? max2 h n) = true.
Proof.
  intros Hh Hn. unfold max2. rewrite Hh, Hn. simpl.
  destruct (PrimFloat.is_zero n && negb (PrimFloat.get_sign n)
            && PrimFloat.is_zero h && PrimFloat.get_sign h)%bool eqn:Ez.
  - apply andb_prop in Ez as [Ez _]. apply andb_prop in Ez as [Ez Zh].
    apply andb_prop in Ez as [Zn _].
    repeat split; auto using zeros_leb, leb_refl.
  - destruct (h <? n) eqn:E.
    + repeat split; auto using ltb_leb, leb_refl.
    + repeat split; auto using ltb_false_leb, leb_refl.
Qed.

Lemma fold_max2_spec score : forall h,
  not_nan h -> Forall not_nan score ->
  let r := fold_left max2 score h in
  not_nan r /\ (r = h \/ In r score) /\ (h <=? r) = true /\
  Forall (fun x => (x <=? r) = true) score.
Proof.
  induction score as [|n rest IH]; intros h Hh Hall; simpl.
  - repeat split; auto using leb_refl.
  - apply Forall_cons in Hall as [Hn Hrest].
    destruct (max2_spec h n Hh Hn) as (Hm & Hor & Hhm & Hnm).
    destruct (IH _ Hm Hrest) as (Hr & Hin & Hle & Hfa).
    repeat split; auto.
    + destruct Hin as [-> | Hin]; [destruct Hor as [-> | ->]|]; auto.
    + eauto using leb_trans.
    + constructor; eauto using leb_trans.
Qed.

Lemma leb_neg_infinity x : (x <=? neg_infinity) = true -> x = neg_infinity.
Proof.
  rewrite leb_spec. intros H. apply Prim2SF_inj.
  change (Prim2SF neg_infinity) with (S754_infinity true) in *.
  unfold SFleb in H. destruct (Prim2SF x) as [[]|[]| |[] m e]; simpl in H; congruence.
Qed.

(** On a non-empty vector of numbers, [Math.max] is an element of the vector
    and no element exceeds it. *)
Lemma Math_max_greatest score :
  score <> [] -> Forall not_nan score ->
  In (Math_max score) score /\ Forall (fun x => (x <=? Math_max score) = true) score.
Proof.
  intros Hne Hall. unfold Math_max.
  destruct (fold_max2_spec score neg_infinity) as (Hr & Hin & _ & Hfa); auto.
  { reflexivity. }
  split; auto. destruct Hin as [E | Hin]; auto.
  rewrite E in *. destruct score as [|x rest]; [congruence|].
  apply Forall_cons in Hfa as [Hx _]. apply leb_neg_infinity in Hx. left. auto.
Qed.

Lemma classify_non_cancer score :
  (confidenceScore score <=? 50) = true ->
  classify score =
  {| label := "Non-cancer"; suggestion := "Penyakit kanker tidak terdeteksi." |}.
Proof. unfold classify. intros ->. reflexivity. Qed.

Lemma classify_cancer score :
  (confidenceScore score <=? 50) = false ->
  classify score = {| label := "Cancer"; suggestion := "Segera periksa ke dokter!" |}.
Proof. unfold classify. intros ->. reflexivity. Qed.

(** The three corner inputs: an exact 50, an empty vector ([-Infinity]) and
    a NaN, which is neither at most 50 nor above it and falls in the [else]
    arm. *)
Example classify_boundary :
  classify [0.5] =
  {| label := "Non-cancer"; suggestion := "Penyakit kanker tidak terdeteksi." |}.
Proof. reflexivity. Qed.

Example classify_empty :
  classify [] =
  {| label := "Non-cancer"; suggestion := "Penyakit kanker tidak terdeteksi." |}.
Proof. reflexivity. Qed.

Example classify_nan :
  classify [nan] = {| label := "Cancer"; suggestion := "Segera periksa ke dokter!" |}.
Proof. reflexivity. Qed.

End Scores.

(** ** Running the monad *)

Lemma call_ok {A} ev (a : A) w : call ev (Ok a) w = (Ok a, logged w [ev]).
Proof. reflexivity. Qed.

Lemma call_throw {A} ev e w : @call A ev (Throw e) w = (Throw e, logged w [ev]).
Proof. reflexivity. Qed.

Lemma bind_run {A B} (m : M A) (k : A -> M B) w :
  bind m k w =
  match fst (m w) with
  | Ok a => k a (snd (m w))
  | Throw e => (Throw e, snd (m w))
  end.
Proof. unfold bind. destruct (m w) as [[a|e] w']; reflexivity. Qed.

Lemma logged_logged w evs evs' : logged (logged w evs) evs' = logged w (evs ++ evs').
Proof. unfold logged. simpl. now rewrite <- app_assoc. Qed.

Lemma new_events_app (w w' : World) (evs : list Event) :
  events w' = events w ++ evs -> new_events w w' = evs.
Proof. intros E. unfold new_events. rewrite E. apply drop_app_length. Qed.

Lemma new_events_logged w evs : new_events w (logged w evs) = evs.
Proof. now apply new_events_app. Qed.

(** ** The classification step *)

Section Classification.
Context (env : Env).

Ltac call_result r :=
  destruct r eqn:?; [rewrite call_ok | rewrite call_throw];
  cbn [fst snd result_bind]; rewrite ?logged_logged; cbn [app].

(** [infer] is the three stages in a row: preprocessing, invocation, reading
    the scores back. *)
Lemma infer_run model image w :
  infer env model image w =
  (result_bind (spec_decode env image) (fun tensor =>
   result_bind (invoke model tensor) (fun prediction =>
   tensor_data env prediction)),
   logged w (infer_trace env model image)).
Proof.
  unfold infer, infer_trace, spec_decode, invoke, model_predict, bind, ret, throw.
  call_result (tf_decodeJpeg env image); [|reflexivity].
  match goal with |- context [tf_resizeNearestNeighbor env ?t ?s] =>
    call_result (tf_resizeNearestNeighbor env t s); [|reflexivity] end.
  match goal with |- context [tf_expandDims env ?t ?a] =>
    call_result (tf_expandDims env t a); [|reflexivity] end.
  match goal with |- context [tf_toFloat env ?t] =>
    call_result (tf_toFloat env t); [|reflexivity] end.
  destruct model as [m|]; [|reflexivity].
  match goal with |- context [gm_predict m ?t] =>
    call_result (gm_predict m t); [|reflexivity] end.
  match goal with |- context [tensor_data env ?t] =>
    call_result (tensor_data env t); reflexivity end.
Qed.

Lemma predictClassification_run model image w :
  predictClassification env model image w =
  (match fst (infer env model image w) with
   | Ok score => Ok (classify score)
   | Throw _ => Throw (EInputError (new_InputError PREDICTION_FAILED))
   end,
   logged w (infer_trace env model image)).
Proof.
  unfold predictClassification, try_catch, bind, ret, throw.
  rewrite infer_run. cbn [fst].
  destruct (result_bind _ _); reflexivity.
Qed.

Lemma classification_failure_infer model image w cause :
  classification_failure env model image cause ->
  fst (infer env model image w) = Throw cause.
Proof.
  rewrite infer_run. cbn [fst].
  intros [c H | t c H1 H2 | t p c H1 H2 H3]; rewrite H1 || rewrite H; simpl; auto.
  all: rewrite H2; simpl; auto.
Qed.

(** Conversely, a failure of [infer] is a failure of one of the three
    stages. *)
Lemma infer_failure model image w cause :
  fst (infer env model image w) = Throw cause ->
  classification_failure env model image cause.
Proof.
  rewrite infer_run. cbn [fst].
  destruct (spec_decode env image) as [t|] eqn:E1; simpl.
  2: { intros [= ->]. now apply decoding_failed. }
  destruct (invoke model t) as [p|] eqn:E2; simpl.
  2: { intros [= ->]. eapply invocation_failed; eauto. }
  intros H. eapply extraction_failed; eauto.
Qed.

Lemma infer_trace_tf model image :
  forallb is_tf_event (infer_trace env model image) = true.
Proof.
  unfold infer_trace.
  repeat match goal with
         | |- context [match ?r with Ok _ => _ | Throw _ => _ end] => destruct r
         | |- context [match ?r with Some _ => _ | None => _ end] => destruct r
         end; reflexivity.
Qed.

Lemma infer_trace_decode_fails model image cause :
  tf_decodeJpeg env image = Throw cause ->
  infer_trace env model image = [EvDecodeJpeg image].
Proof. unfold infer_trace. now intros ->. Qed.

Lemma spec_decode_decode_fails image cause :
  tf_decodeJpeg env image = Throw cause -> spec_decode env image = Throw cause.
Proof. unfold spec_decode. now intros ->. Qed.

Ltac in_list H :=
  repeat (apply elem_of_cons in H as [H|H]; [try discriminate H|]);
  try (apply elem_of_nil in H; destruct H).

(** C4.  For every image handed to [predictClassification], the calls into
    tfjs are, in this order, [decodeJpeg] on the image, [resizeNearestNeighbor]
    to 224 by 224 on its result, [expandDims] at axis 0 on that, and [toFloat]
    on that; when the four succeed, the model is invoked on the result of
    [toFloat] itself, which is the tensor the specification's preprocessor
    describes, and on nothing else.  When one of them fails the model is not
    invoked. *)
Theorem preprocessing_steps m image w :
  let evs := new_events w (snd (predictClassification env (Some m) image w)) in
  match spec_decode env image with
  | Ok tensor =>
      (exists decoded resized batched,
         tf_decodeJpeg env image = Ok decoded /\
         tf_resizeNearestNeighbor env decoded [224; 224] = Ok resized /\
         tf_expandDims env resized 0 = Ok batched /\
         tf_toFloat env batched = Ok tensor /\
         take 5 evs = [ EvDecodeJpeg image; EvResizeNearestNeighbor decoded [224; 224];
                        EvExpandDims resized 0; EvToFloat batched; EvModelPredict tensor ]) /\
      (forall t, EvModelPredict t ∈ evs -> t = tensor)
  | Throw _ => forall t, EvModelPredict t ∉ evs
  end.
Proof.
  cbn zeta. rewrite predictClassification_run. cbn [snd]. rewrite new_events_logged.
  unfold spec_decode, infer_trace.
  destruct (tf_decodeJpeg env image) as [decoded|] eqn:E1; simpl.
  2: { intros t H. in_list H. }
  destruct (tf_resizeNearestNeighbor env decoded _) as [resized|] eqn:E2; simpl.
  2: { intros t H. in_list H. }
  destruct (tf_expandDims env resized 0) as [batched|] eqn:E3; simpl.
  2: { intros t H. in_list H. }
  destruct (tf_toFloat env batched) as [tensor|] eqn:E4; simpl.
  2: { intros t H. in_list H. }
  split; [exists decoded, resized, batched; auto|].
  intros t H. destruct (gm_predict m tensor); in_list H; congruence.
Qed.

(** C10.  Whatever the model handle and the image, [predictClassification]
    either returns the label and suggestion computed from some score vector,
    or throws an [InputError] whose [name] is "InputError", whose
    [statusCode] is 400 and whose message is
    "Terjadi kesalahan dalam melakukan prediksi"; it throws nothing else. *)
Theorem predictClassification_returns_or_throws_InputError model image w :
  (exists score, fst (predictClassification env model image w) = Ok (classify score)) \/
  (exists ie, fst (predictClassification env model image w) = Throw (EInputError ie) /\
              ie_name ie = "InputError" /\ ie_statusCode ie = 400 /\
              ie_message ie = "Terjadi kesalahan dalam melakukan prediksi").
Proof.
  rewrite predictClassification_run. cbn [fst].
  destruct (fst (infer env model image w)) as [score|e]; [left; eauto | right].
  eexists. split; [reflexivity|]. repeat split.
Qed.

(** C1.  When the model returns the score vector [score], the confidence is
    [Math.max(...score) * 100]; [Math.max] of a non-empty vector of numbers is
    its greatest element; a confidence at most 50 (50 included) gives
    "Non-cancer" with "Penyakit kanker tidak terdeteksi.", and a confidence
    above 50 gives "Cancer" with "Segera periksa ke dokter!". *)
Theorem classifier_decision_rule model image w score :
  fst (infer env model image w) = Ok score ->
  let confidence := (Math_max score * 100)%float in
  confidenceScore score = confidence /\
  (score <> [] -> Forall not_nan score ->
     In (Math_max score) score /\
     Forall (fun x => (x <=? Math_max score)%float = true) score) /\
  ((confidence <=? 50)%float = true ->
     fst (predictClassification env model image w) =
     Ok {| label := "Non-cancer"; suggestion := "Penyakit kanker tidak terdeteksi." |}) /\
  ((50 <? confidence)%float = true ->
     fst (predictClassification env model image w) =
     Ok {| label := "Cancer"; suggestion := "Segera periksa ke dokter!" |}).
Proof.
  intros Hscore confidence. rewrite predictClassification_run, Hscore. cbn [fst].
  split; [reflexivity|]. split; [apply Math_max_greatest|]. split; intros H.
  - now rewrite classify_non_cancer.
  - apply ltb_leb_false in H. now rewrite classify_cancer.
Qed.

End Classification.

(** The boundary, through the whole step: a grey pixel scores 0.5, the
    confidence is exactly 50, the label is "Non-cancer". *)
Lemma classifier_decision_rule_witness :
  fst (infer Demo.env (Some Demo.model) Demo.grey_jpeg Demo.fresh) = Ok [0.5%float] /\
  (Math_max [0.5%float] * 100 <=? 50)%float = true /\
  fst (predictClassification Demo.env (Some Demo.model) Demo.grey_jpeg Demo.fresh) =
  Ok {| label := "Non-cancer"; suggestion := "Penyakit kanker tidak terdeteksi." |}.
Proof.
  split; [reflexivity|]. split; [reflexivity|].
  exact (proj1 (proj2 (proj2
           (classifier_decision_rule Demo.env (Some Demo.model) Demo.grey_jpeg
              Demo.fresh [0.5%float] eq_refl))) eq_refl).
Defined.

Example white_image_is_cancer :
  fst (predictClassification Demo.env (Some Demo.model) Demo.white_jpeg Demo.fresh) =
  Ok {| label := "Cancer"; suggestion := "Segera periksa ke dokter!" |}.
Proof. reflexivity. Qed.

Example preprocessing_of_a_white_image :
  new_events Demo.fresh
    (snd (predictClassification Demo.env (Some Demo.model) Demo.white_jpeg Demo.fresh)) =
  let pixels := [255%float; 255%float; 255%float] in
  [ EvDecodeJpeg Demo.white_jpeg;
    EvResizeNearestNeighbor (MkTensor [1; 1; 3] "int32" pixels) [224; 224];
    EvExpandDims (MkTensor [224; 224; 3] "int32" pixels) 0;
    EvToFloat (MkTensor [1; 224; 224; 3] "int32" pixels);
    EvModelPredict (MkTensor [1; 224; 224; 3] "float32" pixels);
    EvTensorData (MkTensor [1; 1] "float32" [(255 / 256)%float]) ].
Proof. reflexivity. Qed.

(** ** Requests against the running server *)

Section Requests.
Context (env : Env) (m : GraphModel).

(** A request for [POST /predict] runs [predict], and [onPreResponse] sees
    what it returned or threw. *)
Lemma serve_predict body w :
  serve env (running m) "POST" "/predict" body w =
  let request := {| req_method := "POST"; req_path := "/predict"; payload := body;
                    req_server := running m |} in
  (onPreResponse (match fst (predict env request w) with
                  | Ok resp => RVResponse resp
                  | Throw e => RVError e 500
                  end),
   snd (predict env request w)).
Proof.
  unfold serve. simpl.
  destruct (predict env _ w) as [[resp|e] w']; reflexivity.
Qed.

Lemma predict_classification_throws fields w e :
  let image := default JUndefined (fields !! "image") in
  fst (predictClassification env (Some m) image w) = Throw e ->
  predict env {| req_method := "POST"; req_path := "/predict"; payload := Some fields;
                 req_server := running m |} w =
  (Throw e, logged w (infer_trace env (Some m) image)).
Proof.
  cbn zeta. unfold predict, destructure_image, bind, ret. simpl.
  rewrite predictClassification_run. cbn [fst]. now intros ->.
Qed.

(** An [InputError] thrown by the classification leaves the server as a
    "fail" body with the error's message and status code. *)
Lemma thrown_InputError_response fields w ie :
  let image := default JUndefined (fields !! "image") in
  fst (predictClassification env (Some m) image w) = Throw (EInputError ie) ->
  serve env (running m) "POST" "/predict" (Some fields) w =
  (RVResponse {| source := BodyFail "fail" (ie_message ie); code := ie_statusCode ie |},
   logged w (infer_trace env (Some m) image)).
Proof.
  cbn zeta. intros H. rewrite serve_predict. cbn zeta.
  now rewrite (predict_classification_throws _ _ _ H).
Qed.

Lemma failure_throws_InputError model image w cause :
  classification_failure env model image cause ->
  fst (predictClassification env model image w) =
  Throw (EInputError (new_InputError PREDICTION_FAILED)).
Proof.
  intros H. rewrite predictClassification_run. cbn [fst].
  now rewrite (classification_failure_infer env _ _ w _ H).
Qed.

(** C5.  A failure of any of the three stages of the classification (the
    preprocessing of the image, the invocation of the model, the reading of
    the scores), whatever its cause, is rethrown as the one [InputError] with
    status code 400 and the fixed message, and the request is answered 400
    with [{status: "fail", message}] carrying that message: neither mentions
    the cause or the stage. *)
Theorem classification_failure_is_masked fields w cause :
  let image := default JUndefined (fields !! "image") in
  classification_failure env (Some m) image cause ->
  fst (predictClassification env (Some m) image w) =
    Throw (EInputError {| ie_message := "Terjadi kesalahan dalam melakukan prediksi";
                          ie_name := "InputError"; ie_statusCode := 400 |}) /\
  fst (serve env (running m) "POST" "/predict" (Some fields) w) =
    RVResponse {| source := BodyFail "fail" "Terjadi kesalahan dalam melakukan prediksi";
                  code := 400 |}.
Proof.
  intros image Hfail.
  pose proof (failure_throws_InputError _ _ w _ Hfail) as Hthrow.
  split; [exact Hthrow|].
  now rewrite (thrown_InputError_response fields w _ Hthrow).
Qed.

(** C6, as the code has it.  A request whose image field is missing or empty
    is answered 400 with [{status: "fail", message}] when the decoder rejects
    the value, and by the decode-failure path itself: the value is handed to
    [decodeJpeg], that call is the only one made, and the answer is the one
    every other decode failure gets. *)
Theorem missing_image_fails_in_the_decoder fields w cause :
  let image := default JUndefined (fields !! "image") in
  image_missing_or_empty fields ->
  tf_decodeJpeg env image = Throw cause ->
  fst (serve env (running m) "POST" "/predict" (Some fields) w) =
    RVResponse {| source := BodyFail "fail" "Terjadi kesalahan dalam melakukan prediksi";
                  code := 400 |} /\
  new_events w (snd (serve env (running m) "POST" "/predict" (Some fields) w)) =
    [EvDecodeJpeg image] /\
  (image = JUndefined \/ image = JBuffer [] \/ image = JString "") /\
  forall fields' w' cause',
    tf_decodeJpeg env (default JUndefined (fields' !! "image")) = Throw cause' ->
    fst (serve env (running m) "POST" "/predict" (Some fields') w') =
    fst (serve env (running m) "POST" "/predict" (Some fields) w).
Proof.
  intros image Hmissing Hdecode.
  assert (forall fields' w' cause',
    tf_decodeJpeg env (default JUndefined (fields' !! "image")) = Throw cause' ->
    serve env (running m) "POST" "/predict" (Some fields') w' =
    (RVResponse {| source := BodyFail "fail" "Terjadi kesalahan dalam melakukan prediksi";
                   code := 400 |},
     logged w' [EvDecodeJpeg (default JUndefined (fields' !! "image"))])) as Hany.
  { intros fields' w' cause' H.
    rewrite (thrown_InputError_response fields' w' (new_InputError PREDICTION_FAILED)).
    - now rewrite (infer_trace_decode_fails env _ _ _ H).
    - apply (failure_throws_InputError _ _ _ cause'), decoding_failed.
      eauto using spec_decode_decode_fails. }
  rewrite (Hany _ _ _ Hdecode). cbn [fst snd]. rewrite new_events_logged.
  repeat split.
  - subst image. destruct Hmissing as [-> | [-> | ->]]; simpl; auto.
  - intros fields' w' cause' H. now rewrite (Hany _ _ _ H).
Qed.

(** A request whose payload is absent altogether fails while destructuring,
    before [predictClassification] is entered: the [TypeError] is not an
    [InputError] and leaves as a 500. *)
Lemma absent_payload_is_500 w :
  serve env (running m) "POST" "/predict" None w =
  (RVResponse {| source := BodyFail "fail"
                   "Cannot destructure property 'image' of 'request.payload' as it is undefined.";
                 code := 500 |}, w).
Proof. reflexivity. Qed.

(** [predict] on the success path: the response, the write, the log. *)
Lemma predict_stores fields w c :
  let image := default JUndefined (fields !! "image") in
  let w1 := snd (predictClassification env (Some m) image w) in
  let data := assembled env w1 c in
  fst (predictClassification env (Some m) image w) = Ok c ->
  firestore_fault env (world_at_store env w1) (id data) data = None ->
  serve env (running m) "POST" "/predict" (Some fields) w =
  (RVResponse {| source := BodyPredicted "success" "Model is predicted successfully" data;
                 code := 201 |},
   {| fs_dirs := fs_dirs w; fs_files := fs_files w;
      predictions := <[id data := data]> (predictions w);
      events := events w ++ infer_trace env (Some m) image ++
                [EvRandomUUID; EvNow; EvFirestoreSet "predictions" (id data) data] |}).
Proof.
  cbn zeta. intros Hc Hstore. rewrite serve_predict. cbn zeta.
  unfold predict, destructure_image, bind, ret. cbn [payload req_server app_model running].
  rewrite predictClassification_run in *. cbn [fst snd] in *. rewrite Hc.
  unfold storeData, bind, ask.
  unfold world_at_store, assembled, randomUUID, now_toISOString, bind, ask, emit, ret in *.
  simpl in Hstore |- *. rewrite Hstore. simpl. now rewrite <- !app_assoc.
Qed.

(** C7.  When the classification returns [c] and the Firestore write
    succeeds, the request is answered 201 with
    [{status: "success", message: "Model is predicted successfully", data}],
    where [data] is the record just assembled: the fresh identifier, the
    label as [result], the suggestion, the timestamp. *)
Theorem predict_success_201 fields w c :
  let image := default JUndefined (fields !! "image") in
  let w1 := snd (predictClassification env (Some m) image w) in
  let data := assembled env w1 c in
  fst (predictClassification env (Some m) image w) = Ok c ->
  firestore_fault env (world_at_store env w1) (id data) data = None ->
  fst (serve env (running m) "POST" "/predict" (Some fields) w) =
  RVResponse {| source := BodyPredicted "success" "Model is predicted successfully" data;
                code := 201 |} /\
  result data = label c /\ o_suggestion data = suggestion c.
Proof.
  intros image w1 data Hc Hstore.
  now rewrite (predict_stores fields w c Hc Hstore).
Qed.

Lemma filter_tf_firestore evs :
  forallb is_tf_event evs = true -> List.filter is_firestore_set evs = [].
Proof.
  induction evs as [|ev evs IH]; simpl; [reflexivity|].
  intros [H1 H2]%andb_prop. rewrite (IH H2). destruct ev; simpl in *; congruence.
Qed.

(** C9.  On a successful prediction the request makes one Firestore write;
    its document key is the [id] field of the record written; the record is
    the [data] object of the 201 body, field for field; afterwards the
    collection maps that key to that record. *)
Theorem stored_record_is_the_response_data fields w c :
  let image := default JUndefined (fields !! "image") in
  let w1 := snd (predictClassification env (Some m) image w) in
  let data := assembled env w1 c in
  let after := snd (serve env (running m) "POST" "/predict" (Some fields) w) in
  fst (predictClassification env (Some m) image w) = Ok c ->
  firestore_fault env (world_at_store env w1) (id data) data = None ->
  List.filter is_firestore_set (new_events w after) =
    [EvFirestoreSet "predictions" (id data) data] /\
  predictions after = <[id data := data]> (predictions w) /\
  predictions after !! id data = Some data /\
  fst (serve env (running m) "POST" "/predict" (Some fields) w) =
  RVResponse {| source := BodyPredicted "success" "Model is predicted successfully" data;
                code := 201 |}.
Proof.
  intros image w1 data after Hc Hstore. subst after.
  rewrite (predict_stores fields w c Hc Hstore). cbn [fst snd predictions].
  fold image w1 data. split; [|split; [|split]]; try reflexivity.
  - erewrite new_events_app by reflexivity.
    rewrite List.filter_app, (filter_tf_firestore _ (infer_trace_tf env _ _)). reflexivity.
  - apply lookup_insert_eq.
Qed.

(** The handler written for the history listing cannot run: its first
    statement reads [getAllData], which no declaration binds. *)
Lemma postPredictHistoriesHandler_throws request w :
  postPredictHistoriesHandler request w =
  (Throw (EError "ReferenceError" "getAllData is not defined"), w).
Proof. reflexivity. Qed.

(** The route table has one entry, and no entry names that handler. *)
Lemma histories_not_in_routes :
  find_route routes "POST" "/predict/histories" = None /\
  Forall (fun r => handler r <> HpostPredictHistoriesHandler) routes.
Proof. split; [reflexivity|]. repeat constructor. discriminate. Qed.

(** C2, on the code.  The server has no route for [POST /predict/histories]:
    whatever is stored and whatever the request carries, the answer is 404
    with [{status: "fail", message: "Not Found"}], and nothing is read. *)
Theorem histories_route_is_not_registered body w :
  serve env (running m) "POST" "/predict/histories" body w =
  (RVResponse {| source := BodyFail "fail" "Not Found"; code := 404 |}, w).
Proof. reflexivity. Qed.

End Requests.

Lemma classification_failure_is_masked_witness :
  fst (serve Demo.env (running Demo.model) "POST" "/predict"
             (Some {["image" := Demo.text_file]}) Demo.fresh) =
  RVResponse {| source := BodyFail "fail" "Terjadi kesalahan dalam melakukan prediksi";
                code := 400 |}.
Proof.
  refine (proj2 (classification_failure_is_masked Demo.env Demo.model
                   {["image" := Demo.text_file]} Demo.fresh
                   (EError "Error"
                      "Expected image (BMP, JPEG, PNG, or GIF), but got unsupported image type")
                   _)).
  apply decoding_failed. reflexivity.
Defined.

(** The other two stages, on concrete models. *)
Example invocation_failure_is_masked :
  fst (serve Demo.env (running Demo.broken_model) "POST" "/predict"
             (Some {["image" := Demo.white_jpeg]}) Demo.fresh) =
  RVResponse {| source := BodyFail "fail" "Terjadi kesalahan dalam melakukan prediksi";
                code := 400 |}.
Proof. reflexivity. Qed.

Example extraction_failure_is_masked :
  fst (serve Demo.env (running Demo.disposed_model) "POST" "/predict"
             (Some {["image" := Demo.white_jpeg]}) Demo.fresh) =
  RVResponse {| source := BodyFail "fail" "Terjadi kesalahan dalam melakukan prediksi";
                code := 400 |}.
Proof. reflexivity. Qed.

Lemma missing_image_fails_in_the_decoder_witness :
  fst (serve Demo.env (running Demo.model) "POST" "/predict" (Some ∅) Demo.fresh) =
    RVResponse {| source := BodyFail "fail" "Terjadi kesalahan dalam melakukan prediksi";
                  code := 400 |}.
Proof.
  refine (proj1 (missing_image_fails_in_the_decoder Demo.env Demo.model ∅ Demo.fresh
                   (EError "TypeError" "contents must be a Uint8Array") _ eq_refl)).
  left. reflexivity.
Defined.

(** C6, as stated, fails.  A request without an image field is not turned
    down before decoding: the one call it makes is [decodeJpeg(undefined)]. *)
Lemma missing_image_reaches_the_decoder :
  (∅ : gmap string JsValue) !! "image" = None /\
  new_events Demo.fresh
    (snd (serve Demo.env Demo.server "POST" "/predict" (Some ∅) Demo.fresh)) =
    [EvDecodeJpeg JUndefined] /\
  ~ rejected_before_decoding Demo.env Demo.server ∅ Demo.fresh.
Proof.
  assert (new_events Demo.fresh
            (snd (serve Demo.env Demo.server "POST" "/predict" (Some ∅) Demo.fresh)) =
          [EvDecodeJpeg JUndefined]) as Hev by reflexivity.
  split; [reflexivity|]. split; [exact Hev|].
  intros [_ Hnever]. apply (Hnever JUndefined). rewrite Hev. apply elem_of_cons. now left.
Qed.

(** With a decoder that rejects nothing, the same request is answered 201:
    nothing but the decoder turns it down. *)
Lemma missing_image_accepted_by_lenient_decoder :
  exists data,
    fst (serve Demo.env_lenient_decoder Demo.server "POST" "/predict" (Some ∅) Demo.fresh) =
    RVResponse {| source := BodyPredicted "success" "Model is predicted successfully" data;
                  code := 201 |}.
Proof. eexists. reflexivity. Qed.

Lemma predict_success_201_witness :
  fst (serve Demo.env (running Demo.model) "POST" "/predict"
             (Some {["image" := Demo.white_jpeg]}) Demo.fresh) =
  RVResponse {| source := BodyPredicted "success" "Model is predicted successfully"
                  {| id := "uuid-6"; result := "Cancer";
                     o_suggestion := "Segera periksa ke dokter!";
                     createdAt := "2024-12-01T00:00:00.000Z" |};
                code := 201 |}.
Proof.
  exact (proj1 (predict_success_201 Demo.env Demo.model {["image" := Demo.white_jpeg]}
                  Demo.fresh
                  {| label := "Cancer"; suggestion := "Segera periksa ke dokter!" |}
                  eq_refl eq_refl)).
Defined.

Lemma stored_record_is_the_response_data_witness :
  predictions (snd (serve Demo.env (running Demo.model) "POST" "/predict"
                          (Some {["image" := Demo.black_jpeg]}) Demo.fresh)) !! "uuid-6" =
  Some {| id := "uuid-6"; result := "Non-cancer";
          o_suggestion := "Penyakit kanker tidak terdeteksi.";
          createdAt := "2024-12-01T00:00:00.000Z" |}.
Proof.
  exact (proj1 (proj2 (proj2
    (stored_record_is_the_response_data Demo.env Demo.model {["image" := Demo.black_jpeg]}
       Demo.fresh
       {| label := "Non-cancer"; suggestion := "Penyakit kanker tidak terdeteksi." |}
       eq_refl eq_refl)))).
Defined.

(** ** Start-up *)

(** *** Which calls a computation can make *)

Lemma emits_ret P {A} (a : A) : emits P (ret a).
Proof. intros w. exists []. cbn. now rewrite app_nil_r. Qed.

Lemma emits_throw P {A} e : emits P (@throw A e).
Proof. intros w. exists []. cbn. now rewrite app_nil_r. Qed.

Lemma emits_ask P {A} (f : World -> A) : emits P (ask f).
Proof. intros w. exists []. cbn. now rewrite app_nil_r. Qed.

Lemma emits_emit (P : Event -> Prop) ev : P ev -> emits P (emit ev).
Proof. intros H w. exists [ev]. cbn. auto. Qed.

Lemma emits_bind P {A B} (m : M A) (k : A -> M B) :
  emits P m -> (forall a, emits P (k a)) -> emits P (bind m k).
Proof.
  intros Hm Hk w. rewrite bind_run. destruct (Hm w) as (evs & Hev & HP).
  destruct (fst (m w)) as [a|e]; cbn [snd]; [|eauto].
  destruct (Hk a (snd (m w))) as (evs' & Hev' & HP').
  exists (evs ++ evs'). rewrite Hev', Hev, <- app_assoc. split; [reflexivity|].
  apply Forall_app; auto.
Qed.

Lemma emits_call (P : Event -> Prop) {A} ev (r : Result A) : P ev -> emits P (call ev r).
Proof.
  intros H. unfold call. apply emits_bind; [now apply emits_emit|].
  intros _. destruct r; [apply emits_ret | apply emits_throw].
Qed.

Lemma emits_fault (P : Event -> Prop) ev f : P ev -> emits P (fault ev f).
Proof. intros H. unfold fault. now apply emits_call. Qed.

Lemma emits_write_file P p c : emits P (write_file p c).
Proof. intros w. exists []. cbn. now rewrite app_nil_r. Qed.

Lemma emits_add_dir P p : emits P (add_dir p).
Proof. intros w. exists []. cbn. now rewrite app_nil_r. Qed.

Lemma emits_for_of P {A} (xs : list A) body :
  (forall x, emits P (body x)) -> emits P (for_of xs body).
Proof.
  intros H. induction xs as [|x rest IH]; cbn [for_of]; [apply emits_ret|].
  apply emits_bind; auto.
Qed.

Create HintDb emits.
#[local] Hint Resolve emits_ret emits_throw emits_ask emits_write_file emits_add_dir : emits.

Ltac emits_steps :=
  repeat first
    [ apply emits_bind; [|intros ?]
    | apply emits_for_of; intros ?
    | apply emits_call
    | apply emits_fault
    | apply emits_emit
    | solve [auto with emits]
    | match goal with |- emits _ (if ?b then _ else _) => destruct b end
    | match goal with |- emits _ (match ?r with Ok _ => _ | Throw _ => _ end) => destruct r end
    | match goal with |- emits _ (match ?r with Some _ => _ | None => _ end) => destruct r end ].

Lemma not_start_not_in evs : Forall not_start evs -> EvServerStart ∉ evs.
Proof. intros H Hin. rewrite Forall_forall in H. now apply (H _ Hin). Qed.

Section Startup.
Context (env : Env).

Lemma loadModel_emits : emits not_start (loadModel env).
Proof.
  unfold loadModel, existsSync, mkdirSync, downloadFile, console_log.
  emits_steps; discriminate.
Qed.

Lemma tls_emits : emits not_start (tls env).
Proof. unfold tls, readFileSync. emits_steps; discriminate. Qed.

Lemma Hapi_server_emits t : emits not_start (Hapi_server env t).
Proof. unfold Hapi_server. emits_steps; discriminate. Qed.

(** *** The stages of [loadModel] *)

Lemma downloadFile_run b src dest w :
  downloadFile env b src dest w =
  match bucket_download env w b src with
  | Ok content =>
      (Ok tt,
       {| fs_dirs := fs_dirs w; fs_files := <[dest := content]> (fs_files w);
          predictions := predictions w;
          events := events w ++ [EvDownload b src dest;
                                 EvConsoleLog ("Downloaded " +:+ src +:+ " to " +:+ dest)] |})
  | Throw e => (Throw e, logged w [EvDownload b src dest])
  end.
Proof.
  unfold downloadFile, bind, ask, write_file, console_log, emit, logged.
  destruct (bucket_download env w b src); [rewrite call_ok | rewrite call_throw];
    cbn [fst snd logged fs_dirs fs_files predictions events]; [|reflexivity].
  now rewrite <- app_assoc.
Qed.

Lemma ensure_dir_run dir w :
  let present := bool_decide (dir ∈ fs_dirs w) || bool_decide (is_Some (fs_files w !! dir)) in
  ensure_dir env dir w =
  if present then (Ok tt, logged w [EvExistsSync dir])
  else match mkdirSync_fault env (logged w [EvExistsSync dir]) dir with
       | Some e => (Throw e, logged w [EvExistsSync dir; EvMkdirSync dir])
       | None => (Ok tt, {| fs_dirs := {[dir]} ∪ fs_dirs w; fs_files := fs_files w;
                            predictions := predictions w;
                            events := events w ++ [EvExistsSync dir; EvMkdirSync dir] |})
       end.
Proof.
  intros present.
  unfold ensure_dir, existsSync, mkdirSync, bind, ask, emit, ret, fault, add_dir.
  cbn [fst snd fs_dirs fs_files events]. fold present.
  destruct present; cbn [negb]; [reflexivity|].
  match goal with |- context [mkdirSync_fault env ?w' dir] =>
    change w' with (logged w [EvExistsSync dir]); destruct (mkdirSync_fault env _ dir) end;
    [rewrite call_throw | rewrite call_ok]; unfold logged;
    cbn [fst snd fs_dirs fs_files predictions events]; now rewrite <- app_assoc.
Qed.

Lemma load_run url w :
  load env url w = (tf_loadGraphModel env w url, logged w [EvLoadGraphModel url]).
Proof.
  unfold load, bind, ask. cbn [fst snd].
  destruct (tf_loadGraphModel env w url); reflexivity.
Qed.

Lemma loadModel_stages w :
  let modelDir := path_join (dirname env) "model" in
  loadModel env w =
  (ensure_dir env modelDir ;;;
   fetch env modelDir (MODEL_PATH :: modelWeights) ;;;
   load env ("file://" +:+ path_join modelDir "model.json")) w.
Proof.
  intros modelDir. unfold loadModel, ensure_dir, fetch, load. fold modelDir.
  cbn [for_of]. unfold bind, ask, ret.
  destruct (existsSync modelDir w) as [[present|e] w0]; [|reflexivity].
  destruct ((if negb present then mkdirSync env modelDir else _) w0) as [[[]|e] w1];
    [|reflexivity].
  destruct (downloadFile env BUCKET_NAME MODEL_PATH _ w1) as [[[]|e] w2]; [|reflexivity].
  destruct (for_of modelWeights _ w2) as [[[]|e] w3]; [|reflexivity].
  destruct (call _ _ w3) as [[model|e] w4]; reflexivity.
Qed.

(** A run of downloads that returns has downloaded every file of the list, in
    order, whatever the directory held before; by induction on the list. *)
Lemma fetch_ok dir files : forall w,
  fst (fetch env dir files w) = Ok tt ->
  exists evs,
    events (snd (fetch env dir files w)) = events w ++ evs /\
    List.filter is_download evs =
      map (fun f => EvDownload BUCKET_NAME f (path_join dir f)) files /\
    forallb is_fetch_event evs = true /\
    fs_dirs (snd (fetch env dir files w)) = fs_dirs w /\
    (forall p, is_Some (fs_files w !! p) ->
               is_Some (fs_files (snd (fetch env dir files w)) !! p)) /\
    Forall (fun f => is_Some (fs_files (snd (fetch env dir files w)) !! path_join dir f)) files.
Proof.
  unfold fetch. induction files as [|f rest IH]; intros w; cbn [for_of].
  - intros _. exists []. cbn. rewrite app_nil_r. repeat split; auto.
  - rewrite bind_run, downloadFile_run.
    destruct (bucket_download env w BUCKET_NAME f) as [content|e]; cbn [fst snd];
      [|discriminate].
    intros Hrest.
    destruct (IH _ Hrest) as (evs & Hev & Hfilter & Hkind & Hdirs & Hkeep & Hall).
    set (after := snd (for_of rest _ _)) in *.
    exists (EvDownload BUCKET_NAME f (path_join dir f) ::
            EvConsoleLog ("Downloaded " +:+ f +:+ " to " +:+ path_join dir f) :: evs).
    cbn [events fs_dirs fs_files] in Hev, Hdirs, Hkeep.
    repeat split.
    + rewrite Hev, <- app_assoc. reflexivity.
    + cbn. now rewrite Hfilter.
    + exact Hkind.
    + exact Hdirs.
    + intros p Hp. apply Hkeep. destruct (decide (path_join dir f = p)) as [->|Hne].
      * rewrite lookup_insert_eq. eauto.
      * now rewrite lookup_insert_ne.
    + constructor; [|exact Hall]. apply Hkeep. rewrite lookup_insert_eq. eauto.
Qed.

Lemma fetch_event_not_mkdir evs p :
  forallb is_fetch_event evs = true -> EvMkdirSync p ∉ evs.
Proof.
  intros H Hin. apply list_elem_of_In in Hin.
  rewrite forallb_forall in H. specialize (H _ Hin). discriminate.
Qed.

Lemma path_join_inj dir f g : path_join dir f = path_join dir g -> f = g.
Proof.
  unfold path_join. intros H. apply String.app_inj in H. now apply String.app_inj in H.
Qed.

(** Downloading a list of distinct names from a bucket that serves them
    leaves each file with the content served for its name; by induction on
    the list, a later download never writing the file of an earlier one. *)
Lemma fetch_content (content : string -> Bytes) dir files : forall w,
  NoDup files ->
  (forall w' f, f ∈ files -> bucket_download env w' BUCKET_NAME f = Ok (content f)) ->
  fst (fetch env dir files w) = Ok tt /\
  (forall f, f ∈ files ->
     fs_files (snd (fetch env dir files w)) !! path_join dir f = Some (content f)) /\
  (forall p, (forall f, f ∈ files -> p <> path_join dir f) ->
     fs_files (snd (fetch env dir files w)) !! p = fs_files w !! p).
Proof.
  unfold fetch. induction files as [|f rest IH]; intros w Hnd Hstable; cbn [for_of].
  - repeat split; auto. intros f Hf. now apply elem_of_nil in Hf.
  - apply NoDup_cons in Hnd as [Hf Hnd].
    rewrite bind_run, downloadFile_run, (Hstable w f) by (apply elem_of_cons; auto).
    cbn [fst snd].
    match goal with |- context [for_of rest ?b ?w'] =>
      destruct (IH w' Hnd) as (Hok & Hin & Hout) end.
    { intros w' g Hg. apply Hstable. apply elem_of_cons. auto. }
    split; [exact Hok|]. cbn [fs_files] in Hout. split.
    + intros g Hg. apply elem_of_cons in Hg as [->|Hg]; [|now apply Hin].
      rewrite Hout.
      * apply lookup_insert_eq.
      * intros g Hg Heq. apply path_join_inj in Heq. congruence.
    + intros p Hp. rewrite Hout.
      * apply lookup_insert_ne. intros Heq. apply (Hp f); [apply elem_of_cons; auto|auto].
      * intros g Hg. apply Hp. apply elem_of_cons. auto.
Qed.

(** The files of a run that returns, against a bucket that serves [content]:
    the stages of [loadModel] put together. *)
Lemma loadModel_content (content : string -> Bytes) w model :
  stable_bucket env content ->
  fst (loadModel env w) = Ok model ->
  forall f, f ∈ MODEL_PATH :: modelWeights ->
    fs_files (snd (loadModel env w)) !! path_join (path_join (dirname env) "model") f =
    Some (content f).
Proof.
  intros Hstable. rewrite (loadModel_stages w). cbn zeta.
  rewrite bind_run.
  destruct (fst (ensure_dir env _ w)) as [[]|e]; [|discriminate].
  rewrite bind_run.
  destruct (fetch_content content (path_join (dirname env) "model")
              (MODEL_PATH :: modelWeights)
              (snd (ensure_dir env (path_join (dirname env) "model") w)))
    as (Hok & Hin & _).
  { apply (bool_decide_unpack _). vm_compute. exact I. }
  { exact Hstable. }
  rewrite Hok, load_run. cbn [fst snd logged fs_files]. intros _. exact Hin.
Qed.

(** C3, as the code has it.  Whenever [loadModel] returns, it has downloaded
    all five artifact files from the bucket, [model.json] first and the four
    shards after it, whether or not the model directory already held them;
    the only thing the state of the disk decides is whether the directory is
    created.  The five files are on disk afterwards, and a file of a
    previous startup is overwritten, not reused: whatever the disk [w] held
    at a file's path, against a bucket that serves [content] the file holds
    [content f] afterwards. *)
Theorem loadModel_downloads_every_file w model :
  let modelDir := path_join (dirname env) "model" in
  let after := snd (loadModel env w) in
  fst (loadModel env w) = Ok model ->
  List.filter is_download (new_events w after) =
    map (fun f => EvDownload BUCKET_NAME f (path_join modelDir f))
        (MODEL_PATH :: modelWeights) /\
  (EvMkdirSync modelDir ∈ new_events w after <->
   (modelDir ∉ fs_dirs w) /\ fs_files w !! modelDir = None) /\
  Forall (fun f => is_Some (fs_files after !! path_join modelDir f))
         (MODEL_PATH :: modelWeights) /\
  (forall content : string -> Bytes,
     stable_bucket env content ->
     Forall (fun f => fs_files after !! path_join modelDir f = Some (content f))
            (MODEL_PATH :: modelWeights)).
Proof.
  intros modelDir after Hret.
  match goal with |- ?A /\ ?B /\ ?C /\ ?D =>
    assert D as Hcontent;
    [|enough (A /\ B /\ C) as (H1 & H2 & H3) by (repeat (split; [assumption|]); exact Hcontent)]
  end.
  { intros content Hstable. apply Forall_forall. intros f Hf.
    exact (loadModel_content content w model Hstable Hret f Hf). }
  clear Hcontent. revert Hret. subst after.
  rewrite (loadModel_stages w). fold modelDir.
  rewrite bind_run.
  pose proof (ensure_dir_run modelDir w) as Hdir. cbn zeta in Hdir.
  assert (bool_decide (modelDir ∈ fs_dirs w)
          || bool_decide (is_Some (fs_files w !! modelDir)) = false
          <-> (modelDir ∉ fs_dirs w) /\ fs_files w !! modelDir = None) as Hpresent.
  { rewrite orb_false_iff, !bool_decide_eq_false, eq_None_not_Some. reflexivity. }
  destruct (bool_decide (modelDir ∈ fs_dirs w)
            || bool_decide (is_Some (fs_files w !! modelDir))).
  - rewrite Hdir. cbn [fst snd]. rewrite bind_run.
    destruct (fst (fetch env modelDir _ _)) as [[]|e] eqn:Hfetch; [|discriminate].
    destruct (fetch_ok _ _ _ Hfetch) as (evs & Hev & Hfilter & Hkind & _ & _ & Hall).
    rewrite load_run. cbn [fst snd]. intros _.
    match goal with |- context [new_events w ?w'] =>
      assert (new_events w w' =
              EvExistsSync modelDir :: evs ++
              [EvLoadGraphModel ("file://" +:+ path_join modelDir "model.json")]) as ->
    end.
    { apply new_events_app. cbn [logged events] in *. rewrite Hev, <- !app_assoc.
      reflexivity. }
    split; [|split].
    + cbn [List.filter is_download]. rewrite List.filter_app, Hfilter. cbn.
      rewrite ?app_nil_r. reflexivity.
    + split; [|intros [? ?]; assert (true = false) by (apply Hpresent; auto); discriminate].
      intros Hin. exfalso. apply elem_of_cons in Hin as [Hin|Hin]; [discriminate|].
      apply elem_of_app in Hin as [Hin|Hin]; [now apply fetch_event_not_mkdir in Hin|].
      apply elem_of_cons in Hin as [Hin|Hin]; [discriminate|]. now apply elem_of_nil in Hin.
    + exact Hall.
  - rewrite Hdir.
    destruct (mkdirSync_fault env _ modelDir); cbn [fst snd]; [discriminate|].
    rewrite bind_run.
    destruct (fst (fetch env modelDir _ _)) as [[]|e] eqn:Hfetch; [|discriminate].
    destruct (fetch_ok _ _ _ Hfetch) as (evs & Hev & Hfilter & Hkind & _ & _ & Hall).
    rewrite load_run. cbn [fst snd]. intros _.
    match goal with |- context [new_events w ?w'] =>
      assert (new_events w w' =
              EvExistsSync modelDir :: EvMkdirSync modelDir :: evs ++
              [EvLoadGraphModel ("file://" +:+ path_join modelDir "model.json")]) as ->
    end.
    { apply new_events_app. cbn [logged events] in *. rewrite Hev, <- !app_assoc.
      reflexivity. }
    split; [|split].
    + cbn [List.filter is_download]. rewrite List.filter_app, Hfilter. cbn.
      rewrite ?app_nil_r. reflexivity.
    + split; [intros _; now apply Hpresent|].
      intros _. apply elem_of_cons. right. apply elem_of_cons. now left.
    + exact Hall.
Qed.

End Startup.

(** On the machine of an earlier start, whose five files hold the byte 01,
    and against a bucket that now serves the byte 02: all five files are
    downloaded again, and [model.json] holds the byte 02 afterwards. *)
Lemma loadModel_downloads_every_file_witness :
  fs_files Demo.warm !! "/app/model/model.json" = Some [Byte.x01] /\
  List.filter is_download (new_events Demo.warm (snd (loadModel env_new_release Demo.warm))) =
  [ EvDownload "model_mlgc_yasin" "model.json" "/app/model/model.json";
    EvDownload "model_mlgc_yasin" "group1-shard1of4.bin" "/app/model/group1-shard1of4.bin";
    EvDownload "model_mlgc_yasin" "group1-shard2of4.bin" "/app/model/group1-shard2of4.bin";
    EvDownload "model_mlgc_yasin" "group1-shard3of4.bin" "/app/model/group1-shard3of4.bin";
    EvDownload "model_mlgc_yasin" "group1-shard4of4.bin" "/app/model/group1-shard4of4.bin" ] /\
  fs_files (snd (loadModel env_new_release Demo.warm)) !! "/app/model/model.json" =
  Some [Byte.x02].
Proof.
  destruct (loadModel_downloads_every_file env_new_release Demo.warm Demo.model eq_refl)
    as (Hdownloads & _ & _ & Hcontent).
  split; [vm_compute; reflexivity|]. split; [exact Hdownloads|].
  specialize (Hcontent (fun _ => [Byte.x02]) (fun _ _ _ => eq_refl)).
  apply Forall_cons in Hcontent as [Hhead _]. exact Hhead.
Defined.

(** C3, as stated, fails.  On a machine whose model directory already holds
    the five files, [loadModel] downloads [model.json] again (and the shards
    with it), so not every download fetches a file the cache lacks. *)
Lemma cached_files_are_fetched_again :
  Forall (fun f => is_Some (fs_files Demo.warm !! path_join "/app/model" f))
         (MODEL_PATH :: modelWeights) /\
  EvDownload "model_mlgc_yasin" "model.json" "/app/model/model.json"
    ∈ new_events Demo.warm (snd (loadModel Demo.env Demo.warm)) /\
  ~ fetches_only_missing_files Demo.warm (snd (loadModel Demo.env Demo.warm)).
Proof.
  assert (EvDownload "model_mlgc_yasin" "model.json" "/app/model/model.json"
            ∈ new_events Demo.warm (snd (loadModel Demo.env Demo.warm))) as Hin.
  { apply list_elem_of_In. vm_compute. auto. }
  split; [|split; [exact Hin|]].
  - repeat constructor; vm_compute; eauto.
  - intros Hclaim. specialize (Hclaim _ _ _ Hin). vm_compute in Hclaim. discriminate.
Qed.

Section Serving.
Context (env : Env).

(** What [start] does once the model is there (index.js 166-191). *)
Lemma start_after_load model w3 :
  let tail := (emit (EvServerRoute (map path routes)) ;;;
               emit (EvServerExt "onPreResponse") ;;;
               server_start env ;;;
               console_log ("Server start at: " +:+ server_info_uri env) ;;;
               ret (running model)) in
  exists post,
    events (snd (tail w3)) = events w3 ++ post /\
    EvServerStart ∈ post /\
    forall server, fst (tail w3) = Ok server -> server = running model.
Proof.
  cbn zeta. unfold server_start, fault, console_log, bind, ask, emit, ret.
  cbn [fst snd events].
  match goal with |- context [server_start_fault env ?w'] =>
    destruct (server_start_fault env w') end;
    [rewrite call_throw | rewrite call_ok]; cbn [fst snd logged events];
    rewrite <- ?app_assoc;
    eexists; (split; [reflexivity|]); cbn [app]; (split; [|intros ? [=]; auto]);
    rewrite !elem_of_cons; auto.
Qed.

(** *** The ways a start can fail *)

Lemma unreadable_key_stops_tls w :
  fs_files w !! path_join (path_join (dirname env) "cert") "key.pem" = None ->
  exists e, fst (tls env w) = Throw e.
Proof.
  intros H. unfold tls, readFileSync. rewrite !bind_run. unfold ask at 1. cbn [fst snd].
  rewrite H. rewrite call_throw. cbn [fst]. eauto.
Qed.

Lemma unreadable_cert_stops_tls w :
  fs_files w !! path_join (path_join (dirname env) "cert") "cert.pem" = None ->
  exists e, fst (tls env w) = Throw e.
Proof.
  intros H. unfold tls, readFileSync, bind, ask. cbn [fst snd].
  destruct (fs_files w !! path_join (path_join (dirname env) "cert") "key.pem");
    [rewrite call_ok | rewrite call_throw; eauto].
  cbn [logged fs_files]. rewrite H, call_throw. eauto.
Qed.

Lemma failed_fetch_stops_fetch dir f files :
  f ∈ files ->
  (forall w, exists e, bucket_download env w BUCKET_NAME f = Throw e) ->
  forall w, exists e, fst (fetch env dir files w) = Throw e.
Proof.
  intros Hin Hfail. unfold fetch.
  induction files as [|g rest IH]; intros w; [now apply elem_of_nil in Hin|].
  cbn [for_of]. rewrite bind_run, downloadFile_run.
  destruct (bucket_download env w BUCKET_NAME g) as [content|e] eqn:Hg; cbn [fst snd];
    [|eauto].
  apply elem_of_cons in Hin as [->|Hin]; [|now apply IH].
  destruct (Hfail w) as [e He]. congruence.
Qed.

Lemma failed_fetch_stops_loadModel f :
  f ∈ MODEL_PATH :: modelWeights ->
  (forall w, exists e, bucket_download env w BUCKET_NAME f = Throw e) ->
  forall w, exists e, fst (loadModel env w) = Throw e.
Proof.
  intros Hin Hfail w. rewrite loadModel_stages. cbn zeta. rewrite bind_run.
  destruct (fst (ensure_dir env _ w)); [|eauto].
  rewrite bind_run.
  destruct (failed_fetch_stops_fetch (path_join (dirname env) "model") f _ Hin Hfail
              (snd (ensure_dir env (path_join (dirname env) "model") w))) as [e ->].
  eauto.
Qed.

Lemma failed_load_stops_loadModel :
  (forall w url, exists e, tf_loadGraphModel env w url = Throw e) ->
  forall w, exists e, fst (loadModel env w) = Throw e.
Proof.
  intros Hfail w. rewrite loadModel_stages. cbn zeta. rewrite bind_run.
  destruct (fst (ensure_dir env _ w)); [|eauto].
  rewrite bind_run. destruct (fst (fetch env _ _ _)); [|eauto].
  rewrite load_run. cbn [fst]. apply Hfail.
Qed.

(** C8.  In every run of the module, [server.start()] is called only after
    the certificate files were read, [Hapi.server] returned and [loadModel]
    returned a model: the calls of the run are those up to the end of
    [loadModel], none of which is the start, followed by the rest; a run
    that ends with a server has it started and holding the loaded model; and
    when the certificate cannot be read or [loadModel] throws, the start is
    never called; in particular when a certificate file is missing, when the
    download of one of the five artifact files fails, or when tfjs cannot
    load the model. *)
Theorem server_start_follows_model_load w :
  let after := snd (main env w) in
  let w2 := world_at_load env w in
  (EvServerStart ∈ new_events w after ->
     exists t server model post,
       fst (tls env w) = Ok t /\
       fst (Hapi_server env t (snd (tls env w))) = Ok server /\
       fst (loadModel env w2) = Ok model /\
       new_events w after = new_events w (snd (loadModel env w2)) ++ post /\
       (EvServerStart ∉ new_events w (snd (loadModel env w2))) /\
       EvServerStart ∈ post) /\
  (forall server, fst (main env w) = Ok server ->
     exists model, fst (loadModel env w2) = Ok model /\ server = running model) /\
  (forall e, fst (tls env w) = Throw e -> EvServerStart ∉ new_events w after) /\
  (forall e, fst (loadModel env w2) = Throw e -> EvServerStart ∉ new_events w after) /\
  (fs_files w !! path_join (path_join (dirname env) "cert") "key.pem" = None \/
   fs_files w !! path_join (path_join (dirname env) "cert") "cert.pem" = None ->
   EvServerStart ∉ new_events w after) /\
  (forall f, f ∈ MODEL_PATH :: modelWeights ->
     (forall w', exists e, bucket_download env w' BUCKET_NAME f = Throw e) ->
     EvServerStart ∉ new_events w after) /\
  ((forall w' url, exists e, tf_loadGraphModel env w' url = Throw e) ->
   EvServerStart ∉ new_events w after).
Proof.
  intros after w2.
  enough ((EvServerStart ∈ new_events w after ->
     exists t server model post,
       fst (tls env w) = Ok t /\
       fst (Hapi_server env t (snd (tls env w))) = Ok server /\
       fst (loadModel env w2) = Ok model /\
       new_events w after = new_events w (snd (loadModel env w2)) ++ post /\
       (EvServerStart ∉ new_events w (snd (loadModel env w2))) /\
       EvServerStart ∈ post) /\
    (forall server, fst (main env w) = Ok server ->
       exists model, fst (loadModel env w2) = Ok model /\ server = running model) /\
    (forall e, fst (tls env w) = Throw e -> EvServerStart ∉ new_events w after) /\
    (forall e, fst (loadModel env w2) = Throw e -> EvServerStart ∉ new_events w after))
    as (H1 & H2 & H3 & H4).
  { repeat split; auto.
    - intros [Hkey | Hcert].
      + destruct (unreadable_key_stops_tls w Hkey) as [e He]. eauto.
      + destruct (unreadable_cert_stops_tls w Hcert) as [e He]. eauto.
    - intros f Hf Hfail. destruct (failed_fetch_stops_loadModel f Hf Hfail w2) as [e He]. eauto.
    - intros Hfail. destruct (failed_load_stops_loadModel Hfail w2) as [e He]. eauto. }
  subst after w2. unfold main, world_at_load.
  rewrite bind_run.
  destruct (tls_emits env w) as (evs1 & Hev1 & Hno1).
  destruct (tls env w) as [[t|e1] w1]; cbn [fst snd] in *.
  2: { rewrite (new_events_app _ _ _ Hev1). apply not_start_not_in in Hno1.
       repeat split; try discriminate; tauto. }
  unfold start. rewrite bind_run.
  destruct (Hapi_server_emits env t w1) as (evs2 & Hev2 & Hno2).
  assert (Hfresh : forall s, fst (Hapi_server env t w1) = Ok s ->
            s = {| app_model := None; table := []; ext_onPreResponse := false;
                   started := false |}).
  { unfold Hapi_server, bind, ask, fault. cbn [fst snd].
    destruct (hapi_server_fault env w1); [rewrite call_throw | rewrite call_ok];
      cbn; congruence. }
  destruct (Hapi_server env t w1) as [[server|e2] w2] eqn:Hhapi; cbn [fst snd] in *.
  2: { rewrite Hev1, <- app_assoc in Hev2. rewrite (new_events_app _ _ _ Hev2).
       assert (EvServerStart ∉ evs1 ++ evs2)
         by (apply not_start_not_in; rewrite Forall_app; auto).
       repeat split; try discriminate; tauto. }
  rewrite (Hfresh server eq_refl). cbn [app_model table ext_onPreResponse started app].
  rewrite bind_run.
  destruct (loadModel_emits env w2) as (evs3 & Hev3 & Hno3).
  rewrite Hev2, Hev1, <- !app_assoc in Hev3.
  assert (EvServerStart ∉ evs1 ++ evs2 ++ evs3) as Hno
    by (apply not_start_not_in; rewrite !Forall_app; auto).
  destruct (loadModel env w2) as [[model|e3] w3]; cbn [fst snd] in *.
  2: { rewrite (new_events_app _ _ _ Hev3). repeat split; try discriminate; tauto. }
  destruct (start_after_load model w3) as (post & Hpost & Hin & Hserver).
  cbn zeta in Hpost, Hserver.
  change {| app_model := Some model; table := routes; ext_onPreResponse := true;
            started := true |} with (running model).
  rewrite (new_events_app _ _ _ Hev3).
  rewrite Hev3, <- !app_assoc in Hpost.
  match goal with |- context [new_events w ?w'] =>
    assert (new_events w w' = (evs1 ++ evs2 ++ evs3) ++ post) as ->
      by (apply new_events_app; rewrite <- !app_assoc; exact Hpost)
  end.
  repeat split; try discriminate.
  - intros _. exists t, server, model, post. rewrite Hhapi. auto 10.
  - intros s Hs. exists model. split; [reflexivity|]. now apply Hserver.
Qed.

End Serving.

(** *** Three starts *)

Example start_with_empty_bucket :
  new_events Demo.fresh (snd (main Demo.env_empty_bucket Demo.fresh)) =
  [ EvReadFileSync "/app/cert/key.pem"; EvReadFileSync "/app/cert/cert.pem";
    EvHapiServer [Byte.x2d] [Byte.x2d]; EvExistsSync "/app/model"; EvMkdirSync "/app/model";
    EvDownload "model_mlgc_yasin" "model.json" "/app/model/model.json" ].
Proof. reflexivity. Qed.

Example start_with_bad_topology :
  last (new_events Demo.fresh (snd (main Demo.env_bad_topology Demo.fresh))) =
  Some (EvLoadGraphModel "file:///app/model/model.json").
Proof. reflexivity. Qed.

Example start_on_fresh_machine :
  fst (main Demo.env Demo.fresh) = Ok (running Demo.model) /\
  drop 15 (new_events Demo.fresh (snd (main Demo.env Demo.fresh))) =
  [ EvLoadGraphModel "file:///app/model/model.json"; EvServerRoute ["/predict"];
    EvServerExt "onPreResponse"; EvServerStart;
    EvConsoleLog "Server start at: https://0.0.0.0:3000" ].
Proof. split; reflexivity. Qed.

(** * Further properties *)

(** ** The decision on scores that are not numbers *)

Module FloatNaN.
Import FloatOrder.

Lemma SFeqb_false_SFleb a b : SFeqb a a = false -> SFleb a b = false.
Proof.
  unfold SFeqb, SFleb.
  destruct a as [[]|[]| |[] ma ea], b as [[]|[]| |[] mb eb]; sf_solve.
Qed.

End FloatNaN.

Section NaN.
Import FloatNaN.
Local Open Scope float_scope.

Lemma nan_leb x y : PrimFloat.is_nan x = true -> (x <=? y) = false.
Proof.
  unfold PrimFloat.is_nan. intros H. apply negb_true_iff in H.
  rewrite FloatAxioms.eqb_spec in H. rewrite leb_spec. now apply SFeqb_false_SFleb.
Qed.

Lemma max2_nan_number h n : PrimFloat.is_nan n = true -> max2 h n = nan.
Proof. unfold max2. intros ->. now rewrite orb_true_r. Qed.

Lemma fold_max2_nan score : fold_left max2 score nan = nan.
Proof. induction score as [|n rest IH]; [reflexivity|]. cbn [fold_left]. exact IH. Qed.

(** A NaN anywhere in the vector makes [Math.max] NaN, whatever comes before
    or after it. *)
Lemma Math_max_nan score :
  Exists (fun x => PrimFloat.is_nan x = true) score -> Math_max score = nan.
Proof.
  unfold Math_max. intros H. generalize neg_infinity.
  induction H as [n rest Hn | n rest _ IH]; intros h; cbn [fold_left].
  - rewrite (max2_nan_number h n Hn). apply fold_max2_nan.
  - apply IH.
Qed.

(** X7.  When one of the scores is NaN, the confidence is NaN and the
    classifier answers "Cancer" with "Segera periksa ke dokter!": the test
    [confidenceScore <= 50] is false on NaN, so the [else] arm is taken. *)
Theorem nan_score_is_cancer score :
  Exists (fun x => PrimFloat.is_nan x = true) score ->
  PrimFloat.is_nan (confidenceScore score) = true /\
  classify score = {| label := "Cancer"; suggestion := "Segera periksa ke dokter!" |}.
Proof.
  intros H. unfold classify, confidenceScore. rewrite (Math_max_nan score H).
  split; reflexivity.
Qed.

(** X8.  The label is "Non-cancer" exactly when the confidence is at most
    50, and "Cancer" exactly when it is above 50 or NaN; the suggestion
    always goes with the label, so [classify] has two possible answers. *)
Theorem label_characterisation score :
  let confidence := confidenceScore score in
  (label (classify score) = "Non-cancer" <-> (confidence <=? 50) = true) /\
  (label (classify score) = "Cancer" <->
   (50 <? confidence) = true \/ PrimFloat.is_nan confidence = true) /\
  (classify score = NON_CANCER \/ classify score = CANCER).
Proof.
  intros confidence. subst confidence.
  destruct (confidenceScore score <=? 50) eqn:Hle.
  - rewrite (classify_non_cancer _ Hle). cbn [label].
    split; [tauto|]. split; [|auto]. split; [discriminate|].
    intros [Hlt | Hnan].
    + apply ltb_leb_false in Hlt. congruence.
    + apply (nan_leb _ 50) in Hnan. congruence.
  - rewrite (classify_cancer _ Hle). cbn [label].
    split; [split; discriminate|]. split; [|auto]. split; [|reflexivity]. intros _.
    destruct (PrimFloat.is_nan (confidenceScore score)) eqn:Hnan; [auto|left].
    destruct (50 <? confidenceScore score) eqn:Hlt; [reflexivity|].
    assert ((confidenceScore score <=? 50) = true); [|congruence].
    apply ltb_false_leb; auto. reflexivity.
Qed.

End NaN.

Lemma nan_score_is_cancer_witness :
  classify [0.25%float; PrimFloat.nan; 0.125%float] = CANCER.
Proof.
  refine (proj2 (nan_score_is_cancer [0.25%float; PrimFloat.nan; 0.125%float] _)).
  apply Exists_cons_tl, Exists_cons_hd. reflexivity.
Defined.

(** ** Every request, whatever it is *)

Section EveryRequest.
Context (env : Env) (m : GraphModel).

Lemma find_route_routes mth p :
  find_route routes mth p =
  if String.eqb "POST" mth && String.eqb "/predict" p
  then Some {| path := "/predict"; method := "POST"; handler := Hpredict;
               options := {| allow := "multipart/form-data"; multipart := true;
                             maxBytes := 1000000 |} |}
  else None.
Proof. unfold find_route, routes. cbn [find method path]. now destruct (_ && _). Qed.

Lemma serve_unrouted mth p body w :
  (mth, p) <> ("POST", "/predict") ->
  find_route routes mth p = None /\
  serve env (running m) mth p body w =
  (RVResponse {| source := BodyFail "fail" "Not Found"; code := 404 |}, w).
Proof.
  intros Hne. unfold serve. cbn [table running]. rewrite find_route_routes.
  destruct (String.eqb_spec "POST" mth) as [<-|]; [|split; reflexivity].
  destruct (String.eqb_spec "/predict" p) as [<-|]; [|split; reflexivity].
  now destruct Hne.
Qed.

Lemma classify_cases score : classify score = CANCER \/ classify score = NON_CANCER.
Proof.
  unfold classify.
  destruct (confidenceScore score <=? 50)%float; [right | left]; reflexivity.
Qed.

(** The whole of [predict] on a payload with fields: the classification
    fails, or the write fails, or both succeed. *)
Lemma predict_run fields w :
  let image := default JUndefined (fields !! "image") in
  let w1 := logged w (infer_trace env (Some m) image) in
  predict env {| req_method := "POST"; req_path := "/predict"; payload := Some fields;
                 req_server := running m |} w =
  match fst (infer env (Some m) image w) with
  | Throw _ => (Throw (EInputError (new_InputError PREDICTION_FAILED)), w1)
  | Ok score =>
      let data := assembled env w1 (classify score) in
      match firestore_fault env (world_at_store env w1) (id data) data with
      | Some e =>
          (Throw e,
           logged w1 [EvRandomUUID; EvNow; EvFirestoreSet "predictions" (id data) data])
      | None =>
          (Ok {| source := BodyPredicted "success" "Model is predicted successfully" data;
                 code := 201 |},
           {| fs_dirs := fs_dirs w; fs_files := fs_files w;
              predictions := <[id data := data]> (predictions w);
              events := events w1 ++
                        [EvRandomUUID; EvNow; EvFirestoreSet "predictions" (id data) data] |})
      end
  end.
Proof.
  cbn zeta. unfold predict, destructure_image, bind, ret.
  cbn [payload req_server app_model running].
  rewrite predictClassification_run. cbn [fst snd].
  destruct (fst (infer env (Some m) _ w)) as [score|e]; [|reflexivity].
  unfold storeData, bind, ask, fault.
  unfold world_at_store, assembled, randomUUID, now_toISOString, bind, ask, emit, ret.
  unfold logged. cbn [fst snd id fs_dirs fs_files predictions events].
  match goal with |- context [firestore_fault env ?w' ?i ?d] =>
    destruct (firestore_fault env w' i d) end;
    [rewrite call_throw | rewrite call_ok]; unfold put_prediction, logged;
    cbn [fst snd fs_dirs fs_files predictions events]; rewrite <- !app_assoc; reflexivity.
Qed.

Lemma serve_fields fields w :
  serve env (running m) "POST" "/predict" (Some fields) w =
  let r := predict env {| req_method := "POST"; req_path := "/predict";
                          payload := Some fields; req_server := running m |} w in
  (onPreResponse (match fst r with
                  | Ok resp => RVResponse resp
                  | Throw e => RVError e 500
                  end), snd r).
Proof. apply serve_predict. Qed.

Lemma infer_of_classification image w r :
  fst (predictClassification env (Some m) image w) = r ->
  match r with
  | Ok c => exists score, fst (infer env (Some m) image w) = Ok score /\ c = classify score
  | Throw _ => exists e, fst (infer env (Some m) image w) = Throw e
  end.
Proof.
  rewrite predictClassification_run. cbn [fst]. intros <-.
  destruct (fst (infer env (Some m) image w)); eauto.
Qed.

(** X1.  A request that reaches the router (any method but [OPTIONS], which
    the server's cors setting has Hapi answer) and whose method and path are
    not [POST /predict] matches no route: it is answered 404 with
    [{status: "fail", message: "Not Found"}] and nothing is called, read or
    written. *)
Theorem only_POST_predict_is_routed mth p body w :
  mth <> "OPTIONS" ->
  (mth, p) <> ("POST", "/predict") ->
  find_route routes mth p = None /\
  fst (serve env (running m) mth p body w) =
    RVResponse {| source := BodyFail "fail" "Not Found"; code := 404 |} /\
  snd (serve env (running m) mth p body w) = w.
Proof.
  intros _ Hne. destruct (serve_unrouted mth p body w Hne) as [Hroute ->]. auto.
Qed.

(** X2.  A [POST /predict] request that reaches the handler with a parsed
    payload ends in one of three ways, each with its cause, as long as
    Firestore does not throw the module's own [InputError]: the
    classification throws and the answer is 400 with the fixed message; the
    classification returns, the write succeeds and the answer is 201 with
    the assembled record, now stored; or the classification returns, the
    write throws and the answer is 500 with the message of that error,
    nothing being stored. *)
Theorem handled_request_ends_in_one_of_three_ways fields w :
  let image := default JUndefined (fields !! "image") in
  let classification := fst (predictClassification env (Some m) image w) in
  let w1 := snd (predictClassification env (Some m) image w) in
  let answer := fst (serve env (running m) "POST" "/predict" (Some fields) w) in
  let after := snd (serve env (running m) "POST" "/predict" (Some fields) w) in
  (forall w' k d ie, firestore_fault env w' k d <> Some (EInputError ie)) ->
  (exists e,
     classification = Throw e /\
     answer = RVResponse {| source := BodyFail "fail" PREDICTION_FAILED; code := 400 |} /\
     predictions after = predictions w) \/
  (exists c,
     let data := assembled env w1 c in
     classification = Ok c /\
     firestore_fault env (world_at_store env w1) (id data) data = None /\
     answer = RVResponse {| source := BodyPredicted "success"
                                        "Model is predicted successfully" data;
                            code := 201 |} /\
     predictions after = <[id data := data]> (predictions w)) \/
  (exists c name message,
     let data := assembled env w1 c in
     classification = Ok c /\
     firestore_fault env (world_at_store env w1) (id data) data =
       Some (EError name message) /\
     answer = RVResponse {| source := BodyFail "fail" message; code := 500 |} /\
     predictions after = predictions w).
Proof.
  intros image classification w1 answer after Hfirestore.
  subst answer after classification w1.
  rewrite serve_fields. cbn zeta. rewrite predict_run. cbn zeta. fold image.
  rewrite predictClassification_run. cbn [fst snd].
  destruct (fst (infer env (Some m) image w)) as [score|e]; cbn [fst snd].
  2: { left. eexists. repeat split. }
  right.
  destruct (firestore_fault env _ _ _) as [[ie|name message]|] eqn:Hf; cbn [fst snd].
  - now apply Hfirestore in Hf.
  - right. exists (classify score), name, message. cbn zeta. repeat split. exact Hf.
  - left. exists (classify score). cbn zeta. repeat split. exact Hf.
Qed.

(** X3.  When the classification throws, the request writes nothing: the
    predictions and the files are what they were, and every call made is a
    call into tfjs, so no identifier is drawn, no clock is read and
    Firestore is not contacted. *)
Theorem failed_classification_stores_nothing fields w e :
  let image := default JUndefined (fields !! "image") in
  let after := snd (serve env (running m) "POST" "/predict" (Some fields) w) in
  fst (predictClassification env (Some m) image w) = Throw e ->
  predictions after = predictions w /\
  fs_files after = fs_files w /\
  forallb is_tf_event (new_events w after) = true.
Proof.
  intros image after H. subst after image.
  destruct (infer_of_classification _ _ _ H) as [e' He'].
  rewrite serve_fields. cbn zeta. rewrite predict_run. cbn zeta. rewrite He'. cbn [snd].
  rewrite new_events_logged. repeat split. apply infer_trace_tf.
Qed.

(** X4.  When the classification returns and the Firestore write throws an
    error with message [message], the request is answered 500 with
    [{status: "fail", message}] carrying that message, the write was tried
    once, under the record's own [id], and nothing is stored. *)
Theorem persistence_failure_is_500 fields w c name message :
  let image := default JUndefined (fields !! "image") in
  let w1 := snd (predictClassification env (Some m) image w) in
  let data := assembled env w1 c in
  let after := snd (serve env (running m) "POST" "/predict" (Some fields) w) in
  fst (predictClassification env (Some m) image w) = Ok c ->
  firestore_fault env (world_at_store env w1) (id data) data = Some (EError name message) ->
  fst (serve env (running m) "POST" "/predict" (Some fields) w) =
    RVResponse {| source := BodyFail "fail" message; code := 500 |} /\
  predictions after = predictions w /\
  List.filter is_firestore_set (new_events w after) =
    [EvFirestoreSet "predictions" (id data) data].
Proof.
  intros image w1 data after Hc Hf. subst after data w1 image.
  destruct (infer_of_classification _ _ _ Hc) as (score & Hscore & ->).
  rewrite predictClassification_run in Hf. cbn [snd] in Hf.
  rewrite serve_fields. cbn zeta. rewrite predict_run. cbn zeta. rewrite Hscore.
  rewrite Hf. cbn [fst snd predictions logged].
  rewrite predictClassification_run. cbn [snd].
  repeat split.
  erewrite new_events_app by (cbn [events logged]; rewrite <- app_assoc; reflexivity).
  rewrite List.filter_app, (filter_tf_firestore _ (infer_trace_tf env _ _)). reflexivity.
Qed.

(** X5.  A successful prediction leaves every record filed under another
    key as it was; the collection grows by exactly one record when the
    identifier is new, and keeps its size when the identifier is already
    taken, the old record under it being replaced. *)
Theorem prediction_keeps_other_records fields w c :
  let image := default JUndefined (fields !! "image") in
  let w1 := snd (predictClassification env (Some m) image w) in
  let data := assembled env w1 c in
  let after := snd (serve env (running m) "POST" "/predict" (Some fields) w) in
  fst (predictClassification env (Some m) image w) = Ok c ->
  firestore_fault env (world_at_store env w1) (id data) data = None ->
  (forall k, k <> id data -> predictions after !! k = predictions w !! k) /\
  (predictions w !! id data = None -> size (predictions after) = S (size (predictions w))) /\
  (is_Some (predictions w !! id data) -> size (predictions after) = size (predictions w)).
Proof.
  intros image w1 data after Hc Hf. subst after.
  rewrite (predict_stores env m fields w c Hc Hf). cbn [snd predictions]. fold image w1 data.
  repeat split.
  - intros k Hk. now apply lookup_insert_ne.
  - apply map_size_insert_None.
  - intros [o Ho]. eapply map_size_insert_Some; eauto.
Qed.

(** X6.  If every stored record is filed under its own [id] and carries one
    of the two label and suggestion pairs, the same holds after any request,
    whatever its method, path and payload and however it ends. *)
Theorem requests_keep_the_store_well_formed mth p body w :
  store_ok (predictions w) ->
  store_ok (predictions (snd (serve env (running m) mth p body w))).
Proof.
  intros Hok.
  destruct (decide ((mth, p) = ("POST", "/predict"))) as [[= -> ->]|Hne].
  2: { now destruct (serve_unrouted mth p body w Hne) as [_ ->]. }
  destruct body as [fields|]; [|exact Hok].
  rewrite serve_fields. cbn zeta. rewrite predict_run. cbn zeta.
  destruct (fst (infer env (Some m) _ w)) as [score|e]; cbn [snd]; [|exact Hok].
  match goal with |- context [firestore_fault env ?w' ?i ?d] =>
    destruct (firestore_fault env w' i d) end; cbn [snd predictions logged]; [exact Hok|].
  apply map_Forall_insert_2; [|exact Hok].
  split; [reflexivity|]. unfold assembled. cbn [result o_suggestion].
  destruct (classify_cases score) as [-> | ->]; cbn; auto.
Qed.

End EveryRequest.

Lemma only_POST_predict_is_routed_witness :
  fst (serve Demo.env Demo.server "GET" "/predict" None Demo.fresh) =
  RVResponse {| source := BodyFail "fail" "Not Found"; code := 404 |}.
Proof.
  exact (proj1 (proj2 (only_POST_predict_is_routed Demo.env Demo.model "GET" "/predict" None
                         Demo.fresh ltac:(discriminate) ltac:(discriminate)))).
Defined.

Lemma handled_request_ends_in_one_of_three_ways_witness :
  fst (serve Demo.env Demo.server "POST" "/predict"
             (Some {["image" := Demo.white_jpeg]}) Demo.fresh) =
  RVResponse {| source := BodyPredicted "success" "Model is predicted successfully"
                            {| id := "uuid-6"; result := "Cancer";
                               o_suggestion := "Segera periksa ke dokter!";
                               createdAt := "2024-12-01T00:00:00.000Z" |};
                code := 201 |}.
Proof.
  destruct (handled_request_ends_in_one_of_three_ways Demo.env Demo.model
              {["image" := Demo.white_jpeg]} Demo.fresh ltac:(discriminate))
    as [(e & He & _) | [(c & Hc & _ & Hanswer & _) | (c & name & message & _ & Hf & _)]].
  - vm_compute in He. discriminate.
  - vm_compute in Hc. injection Hc as <-. exact Hanswer.
  - discriminate.
Defined.

Lemma failed_classification_stores_nothing_witness :
  predictions (snd (serve Demo.env Demo.server "POST" "/predict"
                          (Some {["image" := Demo.text_file]}) Demo.fresh)) = ∅.
Proof.
  exact (proj1 (failed_classification_stores_nothing Demo.env Demo.model
                  {["image" := Demo.text_file]} Demo.fresh
                  (EInputError (new_InputError PREDICTION_FAILED)) eq_refl)).
Defined.

Lemma persistence_failure_is_500_witness :
  fst (serve env_firestore_down Demo.server "POST" "/predict"
             (Some {["image" := Demo.white_jpeg]}) Demo.fresh) =
  RVResponse {| source := BodyFail "fail" "14 UNAVAILABLE: No connection established";
                code := 500 |}.
Proof.
  exact (proj1 (persistence_failure_is_500 env_firestore_down Demo.model
                  {["image" := Demo.white_jpeg]} Demo.fresh CANCER
                  "Error" "14 UNAVAILABLE: No connection established" eq_refl eq_refl)).
Defined.

Lemma prediction_keeps_other_records_witness :
  size (predictions (snd (serve Demo.env Demo.server "POST" "/predict"
                               (Some {["image" := Demo.white_jpeg]}) Demo.fresh))) = 1%nat.
Proof.
  exact (proj1 (proj2 (prediction_keeps_other_records Demo.env Demo.model
                         {["image" := Demo.white_jpeg]} Demo.fresh CANCER eq_refl eq_refl))
               eq_refl).
Defined.

(** Two requests in a row, the second on the world the first left. *)
Lemma requests_keep_the_store_well_formed_witness :
  store_ok
    (predictions
       (snd (serve Demo.env Demo.server "POST" "/predict" (Some {["image" := Demo.black_jpeg]})
               (snd (serve Demo.env Demo.server "POST" "/predict"
                       (Some {["image" := Demo.white_jpeg]}) Demo.fresh))))).
Proof.
  apply (requests_keep_the_store_well_formed Demo.env Demo.model).
  apply (requests_keep_the_store_well_formed Demo.env Demo.model).
  apply map_Forall_empty.
Defined.

(** ** What start-up leaves alone *)

Section Frames.
Context (dir : string) (paths : list string).

Lemma frame_refl w : frame dir paths w w.
Proof.
  unfold frame. repeat split; auto.
  intros x Hx. apply elem_of_union. now right.
Qed.

Lemma frame_trans w1 w2 w3 :
  frame dir paths w1 w2 -> frame dir paths w2 w3 -> frame dir paths w1 w3.
Proof.
  intros (Hp & Hd & Hd' & Hs & Hf) (Hp' & Hd2 & Hd2' & Hs' & Hf').
  unfold frame. repeat split.
  - congruence.
  - etrans; eauto.
  - intros x Hx. apply Hd2' in Hx. apply elem_of_union in Hx as [Hx|Hx].
    + apply elem_of_union. now left.
    + now apply Hd'.
  - auto.
  - intros p Hp0. rewrite Hf', Hf; auto.
Qed.

Lemma frame_logged w evs : frame dir paths w (logged w evs).
Proof. exact (frame_refl w). Qed.

Lemma frame_on_disk p w w' : frame dir paths w w' -> on_disk p w -> on_disk p w'.
Proof. intros (_ & Hd & _ & Hs & _) [H|H]; [left | right]; auto. Qed.

Lemma respects_ret {A} (a : A) : respects (frame dir paths) (ret a).
Proof. intros w. apply frame_refl. Qed.

Lemma respects_throw {A} e : respects (frame dir paths) (@throw A e).
Proof. intros w. apply frame_refl. Qed.

Lemma respects_ask {A} (f : World -> A) : respects (frame dir paths) (ask f).
Proof. intros w. apply frame_refl. Qed.

Lemma respects_emit ev : respects (frame dir paths) (emit ev).
Proof. intros w. apply (frame_logged w [ev]). Qed.

Lemma respects_bind {A B} (m : M A) (k : A -> M B) :
  respects (frame dir paths) m -> (forall a, respects (frame dir paths) (k a)) ->
  respects (frame dir paths) (bind m k).
Proof.
  intros Hm Hk w. rewrite bind_run. specialize (Hm w).
  destruct (fst (m w)) as [a|e]; cbn [snd]; [|exact Hm].
  eapply frame_trans; [exact Hm | apply Hk].
Qed.

Lemma respects_call {A} ev (r : Result A) : respects (frame dir paths) (call ev r).
Proof.
  unfold call. apply respects_bind; [apply respects_emit|].
  intros _. destruct r; [apply respects_ret | apply respects_throw].
Qed.

(** Writing one of the listed files keeps the frame. *)
Lemma respects_write_file p c : p ∈ paths -> respects (frame dir paths) (write_file p c).
Proof.
  intros Hin w. unfold frame, write_file. cbn. repeat split; auto.
  - intros x Hx. apply elem_of_union. now right.
  - intros q Hq. destruct (decide (p = q)) as [->|Hne].
    + rewrite lookup_insert_eq. eauto.
    + now rewrite lookup_insert_ne.
  - intros q Hq. apply lookup_insert_ne. intros ->. contradiction.
Qed.

Lemma respects_add_dir : respects (frame dir paths) (add_dir dir).
Proof.
  intros w. unfold frame, add_dir. cbn. repeat split; auto.
  intros x Hx. apply elem_of_union. now right.
Qed.

Lemma respects_for_of {A} (xs : list A) body :
  (forall x, x ∈ xs -> respects (frame dir paths) (body x)) ->
  respects (frame dir paths) (for_of xs body).
Proof.
  induction xs as [|x rest IH]; intros H; cbn [for_of]; [apply respects_ret|].
  apply respects_bind; [apply H, elem_of_cons; auto|].
  intros _. apply IH. intros y Hy. apply H, elem_of_cons. auto.
Qed.

End Frames.

Lemma filter_download_app_shape pre evs post dir url :
  (pre = [EvExistsSync dir] \/ pre = [EvExistsSync dir; EvMkdirSync dir]) ->
  (post = [] \/ post = [EvLoadGraphModel url]) ->
  List.filter is_download (pre ++ evs ++ post) = List.filter is_download evs.
Proof.
  intros Hpre Hpost. rewrite !List.filter_app.
  destruct Hpre as [-> | ->], Hpost as [-> | ->]; cbn; now rewrite ?app_nil_r.
Qed.

Lemma fetch_event_not_load evs url :
  forallb is_fetch_event evs = true -> EvLoadGraphModel url ∉ evs.
Proof.
  intros H Hin. apply list_elem_of_In in Hin.
  rewrite forallb_forall in H. specialize (H _ Hin). discriminate.
Qed.

Lemma not_mkdir_not_in evs p :
  Forall (fun ev => is_mkdir ev = false) evs -> EvMkdirSync p ∉ evs.
Proof. intros H Hin. rewrite Forall_forall in H. now specialize (H _ Hin). Qed.

Section MoreStartup.
Context (env : Env).

Lemma respects_downloadFile dir paths f :
  path_join (modelDir_of env) f ∈ paths ->
  respects (frame dir paths) (downloadFile env BUCKET_NAME f (path_join (modelDir_of env) f)).
Proof.
  intros Hin. unfold downloadFile, console_log.
  apply respects_bind; [apply respects_ask|]. intros r.
  apply respects_bind; [apply respects_call|]. intros content.
  apply respects_bind; [now apply respects_write_file|]. intros _.
  apply respects_emit.
Qed.

Lemma respects_fetch dir paths files :
  (forall f, f ∈ files -> path_join (modelDir_of env) f ∈ paths) ->
  respects (frame dir paths) (fetch env (modelDir_of env) files).
Proof.
  intros H. unfold fetch. apply respects_for_of.
  intros f Hf. apply respects_downloadFile. auto.
Qed.

Lemma respects_ensure_dir paths :
  respects (frame (modelDir_of env) paths) (ensure_dir env (modelDir_of env)).
Proof.
  unfold ensure_dir, existsSync, mkdirSync, fault.
  apply respects_bind.
  { apply respects_bind; [apply respects_emit | intros _; apply respects_ask]. }
  intros present. destruct (negb present); [|apply respects_ret].
  apply respects_bind; [apply respects_ask|]. intros f.
  apply respects_bind; [apply respects_call|]. intros _. apply respects_add_dir.
Qed.

Lemma respects_load dir paths url : respects (frame dir paths) (load env url).
Proof.
  unfold load. apply respects_bind; [apply respects_ask|]. intros r. apply respects_call.
Qed.

Lemma artifact_path_listed f :
  f ∈ MODEL_PATH :: modelWeights -> path_join (modelDir_of env) f ∈ artifact_paths env.
Proof. intros Hf. apply list_elem_of_fmap. eauto. Qed.

Lemma respects_loadModel :
  respects (frame (modelDir_of env) (artifact_paths env)) (loadModel env).
Proof.
  intros w. rewrite loadModel_stages. cbn zeta. revert w.
  change (respects (frame (modelDir_of env) (artifact_paths env))
            (ensure_dir env (modelDir_of env) ;;;
             fetch env (modelDir_of env) (MODEL_PATH :: modelWeights) ;;;
             load env ("file://" +:+ path_join (modelDir_of env) "model.json"))).
  apply respects_bind; [apply respects_ensure_dir|]. intros _.
  apply respects_bind; [|intros _; apply respects_load].
  apply respects_fetch, artifact_path_listed.
Qed.

Lemma respects_main :
  respects (frame (modelDir_of env) (artifact_paths env)) (main env).
Proof.
  unfold main, tls, readFileSync, start, Hapi_server, server_start, fault, console_log.
  repeat first
    [ apply respects_loadModel
    | apply respects_call
    | apply respects_ask
    | apply respects_emit
    | apply respects_ret
    | apply respects_bind; [|intros ?] ].
Qed.

(** X9.  A run of the whole module, however far it gets, leaves the stored
    predictions as they were, removes no directory and no file, creates no
    directory other than the model directory, and changes no file other than
    the five artifact files in it. *)
Theorem startup_touches_only_the_model_files w :
  let after := snd (main env w) in
  predictions after = predictions w /\
  fs_dirs w ⊆ fs_dirs after /\
  fs_dirs after ⊆ {[modelDir_of env]} ∪ fs_dirs w /\
  (forall p, is_Some (fs_files w !! p) -> is_Some (fs_files after !! p)) /\
  (forall p, p ∉ artifact_paths env -> fs_files after !! p = fs_files w !! p).
Proof. exact (respects_main w). Qed.

(** The downloads of a list of files, however the run ends: they are made in
    the order of the list, each once, up to the first that fails. *)
Lemma fetch_prefix dir files : forall w,
  exists evs n,
    events (snd (fetch env dir files w)) = events w ++ evs /\
    List.filter is_download evs =
      take n (map (fun f => EvDownload BUCKET_NAME f (path_join dir f)) files) /\
    forallb is_fetch_event evs = true.
Proof.
  unfold fetch. induction files as [|f rest IH]; intros w; cbn [for_of].
  - exists [], 0%nat. cbn. now rewrite app_nil_r.
  - rewrite bind_run, downloadFile_run.
    destruct (bucket_download env w BUCKET_NAME f) as [content|e]; cbn [fst snd].
    + match goal with |- context [for_of rest ?b ?w'] =>
        destruct (IH w') as (evs & n & Hev & Hfilter & Hkind) end.
      exists (EvDownload BUCKET_NAME f (path_join dir f) ::
              EvConsoleLog ("Downloaded " +:+ f +:+ " to " +:+ path_join dir f) :: evs),
             (S n).
      cbn [events] in Hev. rewrite Hev, <- app_assoc. cbn. now rewrite Hfilter, Hkind.
    + exists [EvDownload BUCKET_NAME f (path_join dir f)], 1%nat. cbn.
      split; [reflexivity|]. split; [|reflexivity]. now rewrite take_0.
Qed.

(** The calls of a run of [loadModel]: the directory check, then downloads
    in the order of the list up to the first that fails, then, only when all
    five succeeded, the load. *)
Lemma loadModel_shape w :
  let dir := modelDir_of env in
  let after := snd (loadModel env w) in
  exists pre evs post n,
    new_events w after = pre ++ evs ++ post /\
    (pre = [EvExistsSync dir] \/ pre = [EvExistsSync dir; EvMkdirSync dir]) /\
    List.filter is_download evs = take n (artifact_downloads env) /\
    forallb is_fetch_event evs = true /\
    (post = [] \/
     post = [EvLoadGraphModel ("file://" +:+ path_join dir "model.json")] /\
     List.filter is_download evs = artifact_downloads env /\
     Forall (fun f => is_Some (fs_files after !! path_join dir f))
            (MODEL_PATH :: modelWeights)) /\
    (forall model, fst (loadModel env w) = Ok model -> post <> []).
Proof.
  intros dir after. subst after. rewrite (loadModel_stages env w). cbn zeta.
  fold (modelDir_of env). fold dir. rewrite bind_run.
  assert (exists pre, events (snd (ensure_dir env dir w)) = events w ++ pre /\
            (pre = [EvExistsSync dir] \/ pre = [EvExistsSync dir; EvMkdirSync dir]))
    as (pre & Hpre & Hshape).
  { rewrite (ensure_dir_run env dir w). cbn zeta.
    destruct (_ || _); [eexists; split; [reflexivity|auto]|].
    destruct (mkdirSync_fault env _ dir); eexists; (split; [reflexivity|auto]). }
  destruct (fst (ensure_dir env dir w)) as [[]|e]; cbn [snd].
  2: { exists pre, [], [], 0%nat. rewrite (new_events_app _ _ _ Hpre), app_nil_r.
       repeat split; auto; try discriminate. }
  rewrite bind_run.
  destruct (fetch_prefix dir (MODEL_PATH :: modelWeights) (snd (ensure_dir env dir w)))
    as (evs & n & Hev & Hfilter & Hkind).
  rewrite Hpre, <- app_assoc in Hev.
  destruct (fst (fetch env dir _ _)) as [[]|e] eqn:Hfetch; cbn [snd].
  2: { exists pre, evs, [], n. rewrite (new_events_app _ _ _ Hev), app_nil_r.
       repeat split; auto; try discriminate. }
  destruct (fetch_ok env _ _ _ Hfetch) as (evs' & Hev' & Hfilter' & _ & _ & _ & Hall).
  rewrite Hpre, <- app_assoc in Hev'. rewrite Hev in Hev'.
  apply app_inv_head, app_inv_head in Hev'. subst evs'.
  rewrite load_run. cbn [snd].
  exists pre, evs, [EvLoadGraphModel ("file://" +:+ path_join dir "model.json")], n.
  split; [|repeat split; auto; try discriminate].
  apply new_events_app. cbn [logged events]. rewrite Hev, <- !app_assoc. reflexivity.
Qed.

(** The downloads of a list whose file [f] the bucket refuses, the files
    before it being served: [f] is the last one requested, and its error is
    the outcome. *)
Lemma fetch_stops dir (pre : list string) f post e : forall w,
  (forall w' g, g ∈ pre -> exists c, bucket_download env w' BUCKET_NAME g = Ok c) ->
  (forall w', bucket_download env w' BUCKET_NAME f = Throw e) ->
  fst (fetch env dir (pre ++ f :: post) w) = Throw e /\
  exists evs,
    events (snd (fetch env dir (pre ++ f :: post) w)) = events w ++ evs /\
    List.filter is_download evs =
      map (fun g => EvDownload BUCKET_NAME g (path_join dir g)) (pre ++ [f]) /\
    forallb is_fetch_event evs = true.
Proof.
  unfold fetch. induction pre as [|g pre IH]; intros w Hpre Hf; cbn [app for_of].
  - rewrite bind_run, downloadFile_run, Hf. cbn [fst snd logged events].
    split; [reflexivity|]. eexists. split; [reflexivity|]. split; reflexivity.
  - rewrite bind_run, downloadFile_run.
    destruct (Hpre w g) as [c ->]; [apply elem_of_cons; auto|]. cbn [fst snd].
    match goal with |- context [for_of _ ?b ?w'] =>
      destruct (IH w') as (Hthrow & evs & Hev & Hfilter & Hkind) end.
    { intros w' h Hh. apply Hpre. apply elem_of_cons. auto. }
    { exact Hf. }
    split; [exact Hthrow|].
    exists (EvDownload BUCKET_NAME g (path_join dir g) ::
            EvConsoleLog ("Downloaded " +:+ g +:+ " to " +:+ path_join dir g) :: evs).
    cbn [events] in Hev. rewrite Hev, <- app_assoc. cbn. now rewrite Hfilter, Hkind.
Qed.

(** X10.  In every run of [loadModel] the downloads requested are an initial
    part of the list ([model.json], then the four shards in order): none is
    skipped, repeated or taken out of turn; a run that returns requested all
    five, and a run that requested fewer than five has thrown.  And the
    first download that fails ends them: when the bucket serves the files
    listed before [f] and refuses [f] with error [e] (the directory being
    there or created), exactly the files up to and including [f] are
    requested, [loadModel] throws [e], and [tf.loadGraphModel] is not
    called. *)
Theorem downloads_stop_at_the_first_failure w :
  let requested := List.filter is_download (new_events w (snd (loadModel env w))) in
  (exists n,
     requested = take n (artifact_downloads env) /\
     (forall model, fst (loadModel env w) = Ok model -> (5 <= n)%nat) /\
     ((n < 5)%nat -> exists e, fst (loadModel env w) = Throw e)) /\
  (forall (pre : list string) f post e,
     MODEL_PATH :: modelWeights = pre ++ f :: post ->
     (forall w' g, g ∈ pre -> exists c, bucket_download env w' BUCKET_NAME g = Ok c) ->
     (forall w', bucket_download env w' BUCKET_NAME f = Throw e) ->
     (forall w', mkdirSync_fault env w' (modelDir_of env) = None) ->
     requested =
       map (fun g => EvDownload BUCKET_NAME g (path_join (modelDir_of env) g)) (pre ++ [f]) /\
     fst (loadModel env w) = Throw e /\
     forall url, EvLoadGraphModel url ∉ new_events w (snd (loadModel env w))).
Proof.
  intros requested. subst requested. split.
  - destruct (loadModel_shape w)
      as (pre & evs & post & n & Hev & Hpre & Hfilter & _ & Hpost & Hok).
    cbn zeta in *.
    assert (forall model, fst (loadModel env w) = Ok model -> (5 <= n)%nat) as Hall.
    { intros model Hm. specialize (Hok model Hm).
      destruct Hpost as [-> | (_ & Hfull & _)]; [contradiction|].
      rewrite Hfull in Hfilter. apply (f_equal length) in Hfilter.
      rewrite length_take in Hfilter. cbn in Hfilter. lia. }
    exists n. split; [|split; [exact Hall|]].
    + rewrite Hev, <- Hfilter. eapply filter_download_app_shape; eauto.
      destruct Hpost as [-> | [-> _]]; eauto.
    + intros Hn. destruct (fst (loadModel env w)) as [model|e] eqn:Hm; [|eauto].
      specialize (Hall model eq_refl). lia.
  - intros pre f post e Hsplit Hpre Hf Hmkdir.
    rewrite (loadModel_stages env w). cbn zeta. fold (modelDir_of env).
    rewrite Hsplit, bind_run.
    assert (fst (ensure_dir env (modelDir_of env) w) = Ok tt /\
            exists dirs, events (snd (ensure_dir env (modelDir_of env) w)) = events w ++ dirs /\
              List.filter is_download dirs = [] /\
              forall url, EvLoadGraphModel url ∉ dirs) as (-> & dirs & Hdirs & Hnone & Hnoload).
    { rewrite (ensure_dir_run env (modelDir_of env) w). cbn zeta.
      destruct (_ || _); [|rewrite Hmkdir]; (split; [reflexivity|]);
        eexists; (split; [reflexivity|]); (split; [reflexivity|]);
        intros url Hin; repeat (apply elem_of_cons in Hin as [Hin|Hin]; [discriminate|]);
        now apply elem_of_nil in Hin. }
    rewrite bind_run.
    destruct (fetch_stops (modelDir_of env) pre f post e
                (snd (ensure_dir env (modelDir_of env) w)) Hpre Hf)
      as (-> & evs & Hev & Hfilter & Hkind).
    cbn [fst snd]. rewrite Hdirs, <- app_assoc in Hev.
    rewrite (new_events_app _ _ _ Hev).
    split; [|split; [reflexivity|]].
    + now rewrite List.filter_app, Hnone, Hfilter.
    + intros url Hin. apply elem_of_app in Hin as [Hin|Hin]; [now apply Hnoload in Hin|].
      apply list_elem_of_In in Hin. rewrite forallb_forall in Hkind.
      specialize (Hkind _ Hin). discriminate.
Qed.

(** X11.  [tf.loadGraphModel] is called only once all five downloads have
    succeeded: when the call is made it is the last call of [loadModel], its
    argument is the [file://] address of the downloaded [model.json], all five
    files were requested before it and all five are on disk. *)
Theorem model_is_loaded_after_all_downloads w url :
  let dir := modelDir_of env in
  let after := snd (loadModel env w) in
  EvLoadGraphModel url ∈ new_events w after ->
  url = "file://" +:+ path_join dir "model.json" /\
  List.filter is_download (new_events w after) = artifact_downloads env /\
  last (new_events w after) = Some (EvLoadGraphModel url) /\
  Forall (fun f => is_Some (fs_files after !! path_join dir f)) (MODEL_PATH :: modelWeights).
Proof.
  intros dir after Hin. subst after.
  destruct (loadModel_shape w)
    as (pre & evs & post & n & Hev & Hpre & Hfilter & Hkind & Hpost & _).
  cbn zeta in *. fold dir in Hev, Hpre, Hpost.
  rewrite Hev in Hin |- *.
  assert (EvLoadGraphModel url ∈ post) as Hpost_in.
  { apply elem_of_app in Hin as [Hin|Hin].
    - destruct Hpre as [-> | ->];
        repeat (apply elem_of_cons in Hin as [Hin|Hin]; [discriminate|]);
        now apply elem_of_nil in Hin.
    - apply elem_of_app in Hin as [Hin|Hin]; [|exact Hin].
      now apply fetch_event_not_load in Hin. }
  destruct Hpost as [-> | (-> & Hfull & Hfiles)]; [now apply elem_of_nil in Hpost_in|].
  apply elem_of_cons in Hpost_in as [Hpost_in|Hpost_in]; [|now apply elem_of_nil in Hpost_in].
  injection Hpost_in as ->.
  repeat split.
  - rewrite <- Hfull. eapply filter_download_app_shape; eauto.
  - now rewrite app_assoc, last_snoc.
  - exact Hfiles.
Qed.

Lemma ensure_dir_on_disk dir w :
  fst (ensure_dir env dir w) = Ok tt -> on_disk dir (snd (ensure_dir env dir w)).
Proof.
  rewrite (ensure_dir_run env dir w). cbn zeta.
  destruct (bool_decide (dir ∈ fs_dirs w)) eqn:Hd; cbn [orb].
  { intros _. left. cbn. now apply bool_decide_eq_true in Hd. }
  destruct (bool_decide (is_Some (fs_files w !! dir))) eqn:Hf.
  { intros _. right. cbn. now apply bool_decide_eq_true in Hf. }
  destruct (mkdirSync_fault env _ dir); [discriminate|].
  intros _. left. cbn. apply elem_of_union. left. now apply elem_of_singleton.
Qed.

(** A run of [loadModel] that returns leaves the model directory on disk. *)
Lemma loadModel_leaves_directory w model :
  fst (loadModel env w) = Ok model ->
  on_disk (modelDir_of env) (snd (loadModel env w)).
Proof.
  rewrite (loadModel_stages env w). cbn zeta. fold (modelDir_of env).
  rewrite bind_run.
  destruct (fst (ensure_dir env _ w)) as [[]|e] eqn:Hdir; [|discriminate].
  intros _. apply ensure_dir_on_disk in Hdir.
  eapply frame_on_disk; [|exact Hdir].
  apply (respects_bind (modelDir_of env) (artifact_paths env)).
  - apply respects_fetch, artifact_path_listed.
  - intros _. apply respects_load.
Qed.

Lemma rest_of_loadModel_makes_no_directory dir files url :
  emits (fun ev => is_mkdir ev = false) (fetch env dir files ;;; load env url).
Proof. unfold fetch, load, downloadFile, console_log. emits_steps; reflexivity. Qed.

(** With the model directory on disk, [loadModel] does not call
    [mkdirSync]. *)
Lemma loadModel_on_existing_directory w :
  on_disk (modelDir_of env) w ->
  forall p, EvMkdirSync p ∉ new_events w (snd (loadModel env w)).
Proof.
  intros Hpresent p.
  rewrite (loadModel_stages env w). cbn zeta. fold (modelDir_of env).
  rewrite bind_run, (ensure_dir_run env (modelDir_of env) w). cbn zeta.
  assert (bool_decide (modelDir_of env ∈ fs_dirs w)
          || bool_decide (is_Some (fs_files w !! modelDir_of env)) = true) as ->.
  { apply orb_true_iff. rewrite !bool_decide_eq_true. exact Hpresent. }
  cbn [fst snd].
  destruct (rest_of_loadModel_makes_no_directory (modelDir_of env)
              (MODEL_PATH :: modelWeights)
              ("file://" +:+ path_join (modelDir_of env) "model.json")
              (logged w [EvExistsSync (modelDir_of env)])) as (evs & Hev & Hno).
  cbn [logged events] in Hev. rewrite <- app_assoc in Hev.
  rewrite (new_events_app _ _ _ Hev). intros Hin.
  apply elem_of_cons in Hin as [Hin|Hin]; [discriminate|].
  now apply not_mkdir_not_in in Hin.
Qed.

End MoreStartup.

(** With the second shard gone from the bucket: [model.json] and the first
    shard are downloaded, the second shard is asked for, and that is the end. *)
Lemma downloads_stop_at_the_first_failure_witness :
  List.filter is_download (new_events Demo.fresh (snd (loadModel env_missing_shard Demo.fresh))) =
  [ EvDownload "model_mlgc_yasin" "model.json" "/app/model/model.json";
    EvDownload "model_mlgc_yasin" "group1-shard1of4.bin" "/app/model/group1-shard1of4.bin";
    EvDownload "model_mlgc_yasin" "group1-shard2of4.bin" "/app/model/group1-shard2of4.bin" ] /\
  fst (loadModel env_missing_shard Demo.fresh) =
    Throw (EError "ApiError" "No such object: model_mlgc_yasin/group1-shard2of4.bin").
Proof.
  destruct (proj2 (downloads_stop_at_the_first_failure env_missing_shard Demo.fresh)
              ["model.json"; "group1-shard1of4.bin"] "group1-shard2of4.bin"
              ["group1-shard3of4.bin"; "group1-shard4of4.bin"]
              (EError "ApiError" "No such object: model_mlgc_yasin/group1-shard2of4.bin")
              eq_refl)
    as (Hrequested & Hthrown & _).
  - intros w' g Hg. exists [Byte.x01].
    apply elem_of_cons in Hg as [->|Hg]; [reflexivity|].
    apply elem_of_cons in Hg as [->|Hg]; [reflexivity|]. now apply elem_of_nil in Hg.
  - intros w'. reflexivity.
  - intros w'. reflexivity.
  - split; [exact Hrequested | exact Hthrown].
Defined.

Lemma model_is_loaded_after_all_downloads_witness :
  List.filter is_download
    (new_events Demo.fresh (snd (loadModel Demo.env_bad_topology Demo.fresh))) =
  artifact_downloads Demo.env_bad_topology.
Proof.
  refine (proj1 (proj2 (model_is_loaded_after_all_downloads Demo.env_bad_topology Demo.fresh
                          "file:///app/model/model.json" _))).
  apply list_elem_of_In. vm_compute. auto 20.
Defined.

(** With an empty bucket the first download is the only one. *)
Example one_download_from_an_empty_bucket :
  List.filter is_download
    (new_events Demo.fresh (snd (loadModel Demo.env_empty_bucket Demo.fresh))) =
  take 1 (artifact_downloads Demo.env_empty_bucket).
Proof. reflexivity. Qed.

(** X12.  After a run of [loadModel] that returned, a second run on the
    world it left, in the same directory and whatever the collaborators do
    this time, does not call [mkdirSync]: the guard of index.js 34 finds the
    directory. *)
Theorem restart_does_not_recreate_the_directory env env' w model :
  dirname env' = dirname env ->
  fst (loadModel env w) = Ok model ->
  forall p,
    EvMkdirSync p ∉ new_events (snd (loadModel env w))
                               (snd (loadModel env' (snd (loadModel env w)))).
Proof.
  intros Hdir Hok. apply loadModel_on_existing_directory.
  unfold modelDir_of. rewrite Hdir. now apply (loadModel_leaves_directory env w model).
Qed.

Lemma restart_does_not_recreate_the_directory_witness :
  EvMkdirSync "/app/model" ∈ new_events Demo.fresh (snd (loadModel Demo.env Demo.fresh)) /\
  EvMkdirSync "/app/model" ∉
    new_events (snd (loadModel Demo.env Demo.fresh))
               (snd (loadModel Demo.env_bad_topology (snd (loadModel Demo.env Demo.fresh)))).
Proof.
  split.
  - apply list_elem_of_In. vm_compute. auto.
  - exact (restart_does_not_recreate_the_directory Demo.env Demo.env_bad_topology Demo.fresh
             Demo.model eq_refl eq_refl "/app/model").
Defined.

Section Content.
Context (env : Env) (content : string -> Bytes).

(** X13.  Against a bucket that serves the five files, a run of [loadModel]
    that returns leaves each of them in the model directory with the content
    the bucket served for it: reading a file back gives what was downloaded,
    and no download overwrote another's file. *)
Theorem downloaded_files_hold_the_bucket_content w model :
  stable_bucket env content ->
  fst (loadModel env w) = Ok model ->
  forall f, f ∈ MODEL_PATH :: modelWeights ->
    fs_files (snd (loadModel env w)) !! path_join (modelDir_of env) f = Some (content f).
Proof.
  intros Hstable. rewrite (loadModel_stages env w). cbn zeta. fold (modelDir_of env).
  rewrite bind_run.
  destruct (fst (ensure_dir env _ w)) as [[]|e]; [|discriminate].
  rewrite bind_run.
  destruct (fetch_content env content (modelDir_of env) (MODEL_PATH :: modelWeights)
              (snd (ensure_dir env (modelDir_of env) w))) as (Hok & Hin & _).
  { apply (bool_decide_unpack _). vm_compute. exact I. }
  { exact Hstable. }
  rewrite Hok, load_run. cbn [fst snd logged fs_files]. intros _. exact Hin.
Qed.

End Content.

Lemma downloaded_files_hold_the_bucket_content_witness :
  fs_files (snd (loadModel Demo.env Demo.fresh)) !! "/app/model/group1-shard3of4.bin" =
  Some [Byte.x01].
Proof.
  refine (downloaded_files_hold_the_bucket_content Demo.env (fun _ => [Byte.x01]) Demo.fresh
            Demo.model _ eq_refl "group1-shard3of4.bin" _).
  - intros w f Hf. unfold Demo.env, bucket_download, Demo.download, Demo.artifact.
    rewrite String.eqb_refl. cbn [andb]. now rewrite bool_decide_eq_true_2.
  - apply (bool_decide_unpack _). vm_compute. exact I.
Defined.
